(** * QRGPT: the generation form of [src/components/Body.tsx]

    A shallow embedding of the client component [Body]: its four
    [useState] cells, the react-hook-form instance guarded by the zod
    schema [generateFormSchema], and the handlers [handleSubmit],
    [handleSuggestionClick], [handleDownload] and [handleShare].

    JavaScript strings are sequences of UTF-16 code units, JavaScript
    numbers are IEEE-754 binary64 values ([spec_float] of the standard
    library at precision 53), exceptions are an explicit completion
    type, and every call that leaves the component (toasts, clipboard,
    timers) is recorded in a trace of events. *)

From Stdlib Require Import ZArith NArith PArith List String Ascii Bool Lia.
From Stdlib Require Import DecimalString DecimalPos DecimalZ Floats.SpecFloat.
Import ListNotations.

Set Implicit Arguments.

(* ===================================================================== *)
(** ** JavaScript strings *)
(* ===================================================================== *)

Module Js.

(** A code unit; a JavaScript string holds values below 65536. *)
Definition unit16 := N.

Definition jsstring := list unit16.

(** An ASCII literal of the source, as code units. *)
Definition lit (s : string) : jsstring :=
  map N_of_ascii (list_ascii_of_string s).

(** [s.length] *)
Definition length (s : jsstring) : nat := List.length s.

(** Truthiness of a string value: only the empty string is falsy. *)
Definition truthy (s : jsstring) : bool :=
  match s with [] => false | _ :: _ => true end.

(** [a.includes(b)]: [b] occurs in [a] as a contiguous run. *)
Fixpoint starts_with (p s : jsstring) : bool :=
  match p, s with
  | [], _ => true
  | _ :: _, [] => false
  | a :: p', b :: s' => N.eqb a b && starts_with p' s'
  end.

Fixpoint includes (s p : jsstring) : bool :=
  starts_with p s ||
  match s with
  | [] => false
  | _ :: s' => includes s' p
  end.

Local Open Scope N_scope.

(** Completion records: a call either returns or throws. *)
Inductive error := URIError | TypeError | OtherError.

Inductive completion (A : Type) :=
| Return (a : A)
| Throw (e : error).

Arguments Return {A} a.
Arguments Throw {A} e.

(** *** [encodeURIComponent]

    ECMA-262 [Encode] with the unreserved set of [encodeURIComponent]:
    letters, digits and [- _ . ! ~ * ' ( )] are copied, every other
    code point is written as the percent-escaped octets of its UTF-8
    form, and an unpaired surrogate raises [URIError]. *)

Definition is_alnum (c : unit16) : bool :=
  ((48 <=? c) && (c <=? 57)) || ((65 <=? c) && (c <=? 90))
  || ((97 <=? c) && (c <=? 122)).

(** [-] 45, [_] 95, [.] 46, [!] 33, [~] 126, [*] 42, ['] 39, [(] 40, [)] 41 *)
Definition is_mark (c : unit16) : bool :=
  existsb (N.eqb c) [45; 95; 46; 33; 126; 42; 39; 40; 41].

Definition unescaped (c : unit16) : bool := is_alnum c || is_mark c.

Definition is_lead (c : unit16) : bool := (0xD800 <=? c) && (c <=? 0xDBFF).
Definition is_trail (c : unit16) : bool := (0xDC00 <=? c) && (c <=? 0xDFFF).

Definition hex_digit (d : N) : unit16 :=
  if d <? 10 then 48 + d else 55 + d.

(** ["%XX"] for one octet, upper-case hexadecimal. *)
Definition pct (o : N) : jsstring :=
  [37; hex_digit (o / 16); hex_digit (o mod 16)].

(** UTF-8 octets of a code point. *)
Definition utf8 (cp : N) : list N :=
  if cp <? 0x80 then [cp]
  else if cp <? 0x800 then [0xC0 + cp / 64; 0x80 + cp mod 64]
  else if cp <? 0x10000 then
    [0xE0 + cp / 4096; 0x80 + (cp / 64) mod 64; 0x80 + cp mod 64]
  else
    [0xF0 + cp / 262144; 0x80 + (cp / 4096) mod 64;
     0x80 + (cp / 64) mod 64; 0x80 + cp mod 64].

Definition escape (cp : N) : jsstring := flat_map pct (utf8 cp).

Definition pair_code_point (hi lo : unit16) : N :=
  (hi - 0xD800) * 0x400 + (lo - 0xDC00) + 0x10000.

Definition bind_str (r : completion jsstring) (f : jsstring -> jsstring)
  : completion jsstring :=
  match r with
  | Return s => Return (f s)
  | Throw e => Throw e
  end.

Fixpoint encodeURIComponent (s : jsstring) : completion jsstring :=
  match s with
  | [] => Return []
  | c :: rest =>
      if unescaped c then bind_str (encodeURIComponent rest) (cons c)
      else if is_trail c then Throw URIError
      else if is_lead c then
        match rest with
        | [] => Throw URIError
        | d :: rest' =>
            if is_trail d
            then bind_str (encodeURIComponent rest')
                          (app (escape (pair_code_point c d)))
            else Throw URIError
        end
      else bind_str (encodeURIComponent rest) (app (escape c))
  end.

(** [String.prototype.isWellFormed]: no unpaired surrogate. *)
Fixpoint isWellFormed (s : jsstring) : bool :=
  match s with
  | [] => true
  | c :: rest =>
      if is_trail c then false
      else if is_lead c then
        match rest with
        | [] => false
        | d :: rest' => is_trail d && isWellFormed rest'
        end
      else isWellFormed rest
  end.

(** *** Text of an absolute [https] URL

    Every code unit is one that RFC 3986 allows in a URI, and a percent
    sign starts an escape of two hexadecimal digits. *)

Definition is_hex (c : unit16) : bool :=
  ((48 <=? c) && (c <=? 57)) || ((65 <=? c) && (c <=? 70))
  || ((97 <=? c) && (c <=? 102)).

Definition uri_char (c : unit16) : bool :=
  is_alnum c
  || existsb (N.eqb c)
       [45; 46; 95; 126; 58; 47; 63; 35; 91; 93; 64; 33; 36; 38; 39; 40;
        41; 42; 43; 44; 59; 61].

Fixpoint uri_text (s : jsstring) : bool :=
  match s with
  | [] => true
  | c :: rest =>
      if c =? 37 then
        match rest with
        | h :: l :: rest' => is_hex h && is_hex l && uri_text rest'
        | _ => false
        end
      else uri_char c && uri_text rest
  end.

Definition well_formed_url (s : jsstring) : bool :=
  starts_with (lit "https://") s && uri_text s.

End Js.

Import Js.

(* ===================================================================== *)
(** ** JavaScript numbers *)
(* ===================================================================== *)

Module Num.

Local Open Scope Z_scope.

(** binary64 *)
Definition prec := 53.
Definition emax := 1024.

Definition number := spec_float.

(** An integer literal of the source, as a number. *)
Definition of_Z (z : Z) : number := binary_normalize prec emax z 0 false.

Definition mul : number -> number -> number := SFmul prec emax.
Definition add : number -> number -> number := SFadd prec emax.
Definition div : number -> number -> number := SFdiv prec emax.

(** [Math.floor]: the greatest integer not above the argument; zeros,
    infinities and NaN are returned as they are. *)
Definition Math_floor (x : number) : number :=
  match x with
  | S754_finite s m e =>
      if 0 <=? e then x
      else binary_normalize prec emax (cond_Zopp s (Zpos m) / 2 ^ (- e)) 0 s
  | _ => x
  end.

(** What [Math.random()] may return: a number with positive sign, at
    least [+0] and strictly below [1]. *)
Definition is_random (r : number) : bool :=
  match r with
  | S754_zero false => true
  | S754_finite false m e => bounded prec emax m e && SFltb r (of_Z 1)
  | _ => false
  end.

(** Truthiness of a number: [0], [-0] and [NaN] are falsy. *)
Definition truthy (x : number) : bool :=
  match x with
  | S754_zero _ | S754_nan => false
  | _ => true
  end.

(** Structural equality of two numbers. *)
Definition same (x y : number) : bool :=
  match x, y with
  | S754_zero a, S754_zero b => Bool.eqb a b
  | S754_infinity a, S754_infinity b => Bool.eqb a b
  | S754_nan, S754_nan => true
  | S754_finite a m e, S754_finite b n f =>
      Bool.eqb a b && Pos.eqb m n && Z.eqb e f
  | _, _ => false
  end.

(** How many low bits rounding drops from the mantissa [m] at exponent
    [ex]. *)
Definition shift_of (m ex : Z) : Z :=
  Z.max (fexp prec emax (Zdigits2 m + ex) - ex) 0.

(** [`${n}`] for an integer [n]: decimal digits, with a minus sign. *)
Definition decimal (z : Z) : jsstring :=
  lit (NilZero.string_of_int (Z.to_int z)).

End Num.

Import Num.

(* ===================================================================== *)
(** ** The zod schema and the react-hook-form instance *)
(* ===================================================================== *)

Module Form.

(** [GenerateFormValues] *)
Record GenerateFormValues := {
  url : jsstring;
  prompt : jsstring
}.

(** The message react-hook-form keeps per field. *)
Record FieldErrors := {
  url_error : option jsstring;
  prompt_error : option jsstring
}.

Definition no_errors : FieldErrors :=
  {| url_error := None; prompt_error := None |}.

(** [z.string().min(n, { message })] *)
Definition min (n : nat) (message : jsstring) (s : jsstring)
  : option jsstring :=
  if Nat.ltb (Js.length s) n then Some message else None.

(** [z.string().max(n)], with zod's own message. *)
Definition max (n : nat) (s : jsstring) : option jsstring :=
  if Nat.ltb n (Js.length s)
  then Some (lit "String must contain at most "
             ++ decimal (Z.of_nat n) ++ lit " character(s)")
  else None.

Definition first_issue (a b : option jsstring) : option jsstring :=
  match a with Some m => Some m | None => b end.

(** [generateFormSchema] *)
Definition generateFormSchema (data : GenerateFormValues) : FieldErrors :=
  {| url_error := min 1 (lit "URL is required") (url data);
     prompt_error :=
       first_issue
         (min 3 (lit "Prompt must be at least 3 characters") (prompt data))
         (max 160 (prompt data)) |}.

Definition isEmptyObject (e : FieldErrors) : bool :=
  match url_error e, prompt_error e with
  | None, None => true
  | _, _ => false
  end.

(** The state of [useForm]: the field values, the errors shown under the
    fields and [formState.isValid]. *)
Record FormState := {
  values : GenerateFormValues;
  errors : FieldErrors;
  isValid : bool
}.

(** [useForm({ defaultValues: { url: '', prompt: '' } })] *)
Definition useForm : FormState :=
  {| values := {| url := []; prompt := [] |};
     errors := no_errors;
     isValid := false |}.

Inductive field := Url | Prompt.

Definition set_field (name : field) (v : jsstring) (d : GenerateFormValues)
  : GenerateFormValues :=
  match name with
  | Url => {| url := v; prompt := prompt d |}
  | Prompt => {| url := url d; prompt := v |}
  end.

(** [trigger(name)]: the resolver runs on all values, the error of the
    named field is replaced and [isValid] tells whether the whole object
    passed. *)
Definition trigger (name : field) (f : FormState) : FormState :=
  let found := generateFormSchema (values f) in
  {| values := values f;
     errors :=
       match name with
       | Url => {| url_error := url_error found;
                   prompt_error := prompt_error (errors f) |}
       | Prompt => {| url_error := url_error (errors f);
                      prompt_error := prompt_error found |}
       end;
     isValid := isEmptyObject found |}.

(** [form.setValue(name, v, { shouldValidate })] *)
Definition setValue (name : field) (v : jsstring) (shouldValidate : bool)
  (f : FormState) : FormState :=
  let f' := {| values := set_field name v (values f);
               errors := errors f;
               isValid := isValid f |} in
  if shouldValidate then trigger name f' else f'.

(** A change event of a registered field, in [mode: 'onChange']. *)
Definition onChange (name : field) (v : jsstring) (f : FormState)
  : FormState :=
  setValue name v true f.

End Form.

Import Form.

(* ===================================================================== *)
(** ** The component [Body] *)
(* ===================================================================== *)

Module Body.

Local Open Scope Z_scope.

(** [QrGenerateResponse] *)
Record QrGenerateResponse := {
  image_url : jsstring;
  model_latency_ms : number;
  id : jsstring
}.

(** The optional props of [Body]. *)
Record Props := {
  imageUrl : option jsstring;
  prompt_prop : option jsstring;
  redirectUrl : option jsstring;
  modelLatency : option number;
  id_prop : option jsstring
}.

(** The four [useState] cells; an [Error] is kept as its message. *)
Record Hooks := {
  isLoading : bool;
  error : option jsstring;
  response : option QrGenerateResponse;
  submittedURL : option jsstring
}.

Definition initial_hooks : Hooks :=
  {| isLoading := false; error := None; response := None;
     submittedURL := None |}.

Definition setIsLoading (b : bool) (h : Hooks) : Hooks :=
  {| isLoading := b; error := error h; response := response h;
     submittedURL := submittedURL h |}.

Definition setError (e : option jsstring) (h : Hooks) : Hooks :=
  {| isLoading := isLoading h; error := e; response := response h;
     submittedURL := submittedURL h |}.

Definition setResponse (r : option QrGenerateResponse) (h : Hooks) : Hooks :=
  {| isLoading := isLoading h; error := error h; response := r;
     submittedURL := submittedURL h |}.

Definition setSubmittedURL (u : option jsstring) (h : Hooks) : Hooks :=
  {| isLoading := isLoading h; error := error h; response := response h;
     submittedURL := u |}.

(** Calls that leave the component, in the order they are made. *)
Inductive event :=
| CallOnValid (data : GenerateFormValues)
| SetTimeout (ms : Z)
| ToastSuccess (message : jsstring)
| ToastError (message : jsstring)
| ClipboardWriteText (text : jsstring)
| UnhandledRejection
| DownloadQrCode (imageUrl filename : jsstring).

Definition trace := list event.

(** [promptSuggestions] *)
Definition promptSuggestions : list jsstring :=
  [ lit "A city view with clouds";
    lit "A beautiful glacier";
    lit "A forest overlooking a mountain";
    lit "A saharan desert" ].

(** The values one run of [handleSubmit] reads from the outside:
    the first [Math.random()], [Date.now()] and the text
    [Math.random().toString(36).substr(2, 9)]. *)
Record Draw := {
  random : number;
  now : Z;
  suffix : jsstring
}.

Definition qr_endpoint : jsstring :=
  lit "https://api.qrserver.com/v1/create-qr-code/?size=300x300&data=".

(** [Math.floor(Math.random() * 500) + 200] *)
Definition latency (r : number) : number :=
  add (Math_floor (mul r (of_Z 500))) (of_Z 200).

Definition mockResponse (d : Draw) (encodedURL : jsstring)
  : QrGenerateResponse :=
  {| image_url := qr_endpoint ++ encodedURL;
     model_latency_ms := latency (random d);
     id := lit "qr-" ++ decimal (now d) ++ lit "-" ++ suffix d |}.

Definition generated_message : jsstring :=
  lit "QR Code generated successfully! " ++ [0xD83C; 0xDF89]%N.

Definition failed_message : jsstring :=
  lit "Failed to generate QR code. Please try again.".

(** What [handleSubmit] still has to do once its timer fires. *)
Record Pending := {
  awaited_response : QrGenerateResponse;
  awaited_url : jsstring
}.

(** [handleSubmit], from its first line to the [await]: the three
    setters, then the [try] block. A throw of [encodeURIComponent] runs
    [catch] and [finally] at once; otherwise the timer is started and
    the rest waits. The setter calls of one synchronous run are applied
    together, as one update of the component. *)
Definition handleSubmit_start (d : Draw) (data : GenerateFormValues)
  (h : Hooks) : Hooks * trace * option Pending :=
  let h := setIsLoading true h in
  let h := setError None h in
  let h := setResponse None h in
  match encodeURIComponent (url data) with
  | Return encodedURL =>
      (h, [SetTimeout 1000],
       Some {| awaited_response := mockResponse d encodedURL;
               awaited_url := url data |})
  | Throw _ =>
      let h := setError (Some failed_message) h in
      let h := setIsLoading false h in
      (h, [ToastError failed_message], None)
  end.

(** [handleSubmit], after the [await]. *)
Definition handleSubmit_resume (p : Pending) (h : Hooks) : Hooks * trace :=
  let h := setResponse (Some (awaited_response p)) h in
  let h := setSubmittedURL (Some (awaited_url p)) h in
  let h := setIsLoading false h in
  (h, [ToastSuccess generated_message]).

(** How the clipboard of the page behaves: [navigator.clipboard] is
    missing (reading [writeText] off it throws), or [writeText] returns
    a promise that is fulfilled, or one that is rejected. *)
Inductive clipboard := Missing | Fulfils | Rejects.

Definition copied_message : jsstring :=
  lit "Link copied to clipboard! " ++ [0xD83D; 0xDCCB]%N.

(** [handleShare]; the promise of [writeText] is dropped. *)
Definition handleShare (origin : jsstring) (cb : clipboard) (qrId : jsstring)
  : trace :=
  let text := origin ++ lit "/start/" ++ qrId in
  match cb with
  | Missing => [ToastError (lit "Failed to copy link")]
  | Fulfils => [ClipboardWriteText text; ToastSuccess copied_message]
  | Rejects => [ClipboardWriteText text; ToastSuccess copied_message;
                UnhandledRejection]
  end.

(** [handleDownload]; [throws] tells whether [downloadQrCode] throws. *)
Definition handleDownload (throws : bool) (imageUrl filename : jsstring)
  : trace :=
  if throws
  then [DownloadQrCode imageUrl filename;
        ToastError (lit "Failed to download QR code")]
  else [DownloadQrCode imageUrl filename;
        ToastSuccess (lit "QR Code downloaded!")].

(** [handleSuggestionClick] *)
Definition handleSuggestionClick (suggestion : jsstring) (f : FormState)
  : FormState :=
  setValue Prompt suggestion true f.

(** The component between two events. *)
Record Controller := {
  hooks : Hooks;
  form : FormState;
  pending : list Pending;
  log : trace
}.

Definition with_hooks (h : Hooks) (c : Controller) : Controller :=
  {| hooks := h; form := form c; pending := pending c; log := log c |}.

Definition with_form (f : FormState) (c : Controller) : Controller :=
  {| hooks := hooks c; form := f; pending := pending c; log := log c |}.

Definition emit (t : trace) (c : Controller) : Controller :=
  {| hooks := hooks c; form := form c; pending := pending c;
     log := log c ++ t |}.

(** A click on a suggestion. *)
Definition selectSuggestion (suggestion : jsstring) (c : Controller)
  : Controller :=
  with_form (handleSuggestionClick suggestion (form c)) c.

(** The first render. *)
Definition first_render : Controller :=
  {| hooks := initial_hooks; form := useForm; pending := []; log := [] |}.

Definition truthy_string (o : option jsstring) : option jsstring :=
  match o with
  | Some s => if Js.truthy s then Some s else None
  | None => None
  end.

Definition truthy_number (o : option number) : option number :=
  match o with
  | Some x => if Num.truthy x then Some x else None
  | None => None
  end.

(** The effect on the props. *)
Definition useEffect (p : Props) (c : Controller) : Controller :=
  match truthy_string (imageUrl p), truthy_string (prompt_prop p),
        truthy_string (redirectUrl p), truthy_number (modelLatency p),
        truthy_string (id_prop p) with
  | Some imageUrl, Some prompt, Some redirectUrl, Some modelLatency, Some id =>
      let h := setResponse (Some {| image_url := imageUrl;
                                    model_latency_ms := modelLatency;
                                    id := id |}) (hooks c) in
      let h := setSubmittedURL (Some redirectUrl) h in
      let f := setValue Prompt prompt false (form c) in
      let f := setValue Url redirectUrl false f in
      with_form f (with_hooks h c)
  | _, _, _, _, _ => c
  end.

Definition mount (p : Props) : Controller := useEffect p first_render.

(** [form.handleSubmit(handleSubmit)]: the resolver runs on the values;
    with an issue the errors are stored and the callback is not called. *)
Definition onSubmit (d : Draw) (c : Controller) : Controller :=
  let data := values (form c) in
  let found := generateFormSchema data in
  if isEmptyObject found then
    let f := {| values := data; errors := no_errors;
                isValid := isValid (form c) |} in
    let '(h, t, p) := handleSubmit_start d data (hooks c) in
    {| hooks := h; form := f;
       pending := pending c ++ match p with Some p => [p] | None => [] end;
       log := log c ++ CallOnValid data :: t |}
  else
    with_form {| values := data; errors := found;
                 isValid := isValid (form c) |} c.

(** The timer of the oldest waiting [handleSubmit] fires. *)
Definition onTimer (c : Controller) : option Controller :=
  match pending c with
  | [] => None
  | p :: rest =>
      let '(h, t) := handleSubmit_resume p (hooks c) in
      Some {| hooks := h; form := form c; pending := rest;
              log := log c ++ t |}
  end.

(** One submit of the form of a page on which no timer is running: the
    update it makes at once and, when it started a timer, the update
    made when that timer fires. *)
Definition submit (d : Draw) (c : Controller) : list Controller :=
  let c1 := onSubmit d c in
  c1 :: match onTimer c1 with
        | Some c2 => [c2]
        | None => []
        end.

(** *** What is rendered *)

Inductive label := LoadingDots | Regenerate | Generate.

Record View := {
  button_disabled : bool;
  button_label : label;
  alert : option jsstring;
  qr_card : option jsstring;
  actions : option QrGenerateResponse
}.

Definition render (c : Controller) : View :=
  let h := hooks c in
  {| button_disabled := isLoading h || negb (isValid (form c));
     button_label :=
       if isLoading h then LoadingDots
       else match response h with
            | Some _ => Regenerate
            | None => Generate
            end;
     alert := error h;
     qr_card := option_map image_url (response h);
     actions := response h |}.

(** *** The life cycle named by the specification *)

Inductive RequestState :=
| Idle
| Loading
| Success (r : QrGenerateResponse)
| Failed (message : jsstring).

Definition requestState (h : Hooks) : RequestState :=
  if isLoading h then Loading
  else match error h with
       | Some m => Failed m
       | None =>
           match response h with
           | Some r => Success r
           | None => Idle
           end
       end.

(** *** Events of the page *)

Inductive action :=
| ChangeField (name : field) (v : jsstring)
| ClickSuggestion (i : nat)
| ClickSubmit (d : Draw)
| TimerFires
| ClickDownload (throws : bool)
| ClickShare (origin : jsstring) (cb : clipboard).

(** One event; [None] when the page does not offer it: the submit button
    is disabled, no timer is running, or the result buttons are not
    shown. *)
Definition perform (a : action) (c : Controller) : option Controller :=
  match a with
  | ChangeField name v => Some (with_form (onChange name v (form c)) c)
  | ClickSuggestion i =>
      match nth_error promptSuggestions i with
      | Some s => Some (selectSuggestion s c)
      | None => None
      end
  | ClickSubmit d =>
      if button_disabled (render c) || negb (is_random (random d))
      then None
      else Some (onSubmit d c)
  | TimerFires => onTimer c
  | ClickDownload throws =>
      match actions (render c) with
      | Some r =>
          Some (emit (handleDownload throws (image_url r) (lit "qrCode")) c)
      | None => None
      end
  | ClickShare origin cb =>
      match actions (render c) with
      | Some r => Some (emit (handleShare origin cb (id r)) c)
      | None => None
      end
  end.

Fixpoint run (l : list action) (c : Controller) : option Controller :=
  match l with
  | [] => Some c
  | a :: l' =>
      match perform a c with
      | Some c' => run l' c'
      | None => None
      end
  end.

(** The states the page can be in. *)
Inductive reachable : Controller -> Prop :=
| reach_first : reachable first_render
| reach_mount p : reachable (mount p)
| reach_step a c c' :
    reachable c -> perform a c = Some c' -> reachable c'.

(** What every state of the page satisfies: while loading there is
    neither result nor error and exactly one timer runs; otherwise no
    timer runs and a result and an error are never held together; and
    [isValid] is only set when the values pass the schema. *)
Definition coherent (c : Controller) : Prop :=
  (if isLoading (hooks c)
   then response (hooks c) = None /\ error (hooks c) = None
        /\ exists p, pending c = [p]
   else pending c = []
        /\ (error (hooks c) = None \/ response (hooks c) = None))
  /\ (isValid (form c) = true ->
      isEmptyObject (generateFormSchema (values (form c))) = true).

(** The number of times the callback of the form was called. *)
Definition calls (t : trace) : nat :=
  List.length (filter (fun e => match e with CallOnValid _ => true
                                        | _ => false end) t).

Definition clipboard_writes (t : trace) : list jsstring :=
  flat_map (fun e => match e with ClipboardWriteText s => [s]
                             | _ => [] end) t.

Definition error_toasts (t : trace) : list jsstring :=
  flat_map (fun e => match e with ToastError s => [s] | _ => [] end) t.

Definition success_toasts (t : trace) : list jsstring :=
  flat_map (fun e => match e with ToastSuccess s => [s] | _ => [] end) t.

End Body.

Import Body.

(* ===================================================================== *)
(** ** The card [QrCard] and the time it shows *)
(* ===================================================================== *)

Module Card.

Local Open Scope Z_scope.

(** The integer [n] for which [n / 100] is nearest to the finite number
    of mantissa [m] and exponent [e]; of two such integers the larger. *)
Definition nearest_hundredth (m : positive) (e : Z) : Z :=
  if 0 <=? e then Zpos m * 2 ^ e * 100
  else (200 * Zpos m + 2 ^ (- e)) / (2 * 2 ^ (- e)).

(** The digits of [n] with a point before the last two, padded with
    zeros to at least three digits. *)
Definition point_two (n : Z) : jsstring :=
  let m := decimal n in
  let m := repeat 48%N (3 - Js.length m) ++ m in
  firstn (Js.length m - 2) m ++ lit "." ++ skipn (Js.length m - 2) m.

(** [x.toFixed(2)]. [None] stands for the exponent notation of the
    numbers from 10^21 on, which is not modelled. *)
Definition toFixed2 (x : number) : option jsstring :=
  match x with
  | S754_nan => Some (lit "NaN")
  | S754_infinity false => Some (lit "Infinity")
  | S754_infinity true => Some (lit "-Infinity")
  | S754_zero _ => Some (lit "0.00")
  | S754_finite s m e =>
      let n := nearest_hundredth m e in
      if 10 ^ 23 <=? n then None
      else Some ((if s then lit "-" else []) ++ point_two n)
  end.

(** What [QrCard] puts on the page: the source of the image and the
    line under it. *)
Record QrCardView := {
  img_src : jsstring;
  img_alt : jsstring;
  caption : jsstring
}.

(** [QrCard] *)
Definition QrCard (imageURL time : jsstring) : QrCardView :=
  {| img_src := imageURL;
     img_alt := lit "Generated QR Code";
     caption := lit "Generated in " ++ time ++ lit "s" |}.

(** The [time] prop [Body] passes:
    [(response.model_latency_ms / 1000).toFixed(2)] *)
Definition time_prop (r : QrGenerateResponse) : option jsstring :=
  toFixed2 (div (model_latency_ms r) (of_Z 1000)).

(** The card [Body] renders for a response. *)
Definition card (r : QrGenerateResponse) : option QrCardView :=
  option_map (QrCard (image_url r)) (time_prop r).

End Card.

Import Card.

(* ===================================================================== *)
(** ** Vocabulary of the properties *)
(* ===================================================================== *)

Module Ledger.

Local Open Scope N_scope.

(** Every unit is a 16-bit code unit. *)
Definition js_string (s : jsstring) : bool :=
  forallb (fun c => c <? 65536) s.

(** What an escaped component is made of: a unit that
    [encodeURIComponent] copies, or the percent sign. *)
Definition data_unit (c : unit16) : bool := unescaped c || (c =? 37).

Fixpoint str_eqb (a b : jsstring) : bool :=
  match a, b with
  | [], [] => true
  | x :: a', y :: b' => (x =? y) && str_eqb a' b'
  | _, _ => false
  end.

(** How often a toast with the given text was shown. *)
Definition toasts_success (m : jsstring) (t : trace) : nat :=
  List.length (filter (fun e => match e with
                                | ToastSuccess s => str_eqb s m
                                | _ => false
                                end) t).

Definition toasts_error (m : jsstring) (t : trace) : nat :=
  List.length (filter (fun e => match e with
                                | ToastError s => str_eqb s m
                                | _ => false
                                end) t).

Definition timers (t : trace) : nat :=
  List.length (filter (fun e => match e with
                                | SetTimeout _ => true
                                | _ => false
                                end) t).

(** Every call of [handleSubmit] has shown its toast or still waits for
    its timer, and every timer belongs to a call that did not fail. *)
Definition settled (c : Controller) : Prop :=
  calls (log c)
  = (toasts_success generated_message (log c)
     + toasts_error failed_message (log c)
     + List.length (pending c))%nat
  /\ timers (log c)
     = (toasts_success generated_message (log c)
        + List.length (pending c))%nat.

(** The response [r] is the QR code of the address [u]. *)
Definition code_of (u : jsstring) (r : QrGenerateResponse) : Prop :=
  exists enc,
    encodeURIComponent u = Return enc /\ image_url r = qr_endpoint ++ enc.

(** The result on the page is the code of the address kept in
    [submittedURL], or the result and address given by the props; the
    waiting results are the codes of their addresses; and an error is
    the one message of [handleSubmit]. *)
Definition traced (p : Props) (c : Controller) : Prop :=
  (forall r, response (hooks c) = Some r ->
     exists u, submittedURL (hooks c) = Some u
               /\ (code_of u r
                   \/ (imageUrl p = Some (image_url r)
                       /\ redirectUrl p = Some u)))
  /\ (forall q, In q (pending c) ->
        code_of (awaited_url q) (awaited_response q))
  /\ (forall m, error (hooks c) = Some m -> m = failed_message).

(** No unit of the text is the hyphen that separates the parts of an
    id. *)
Definition dash_free (s : jsstring) : bool :=
  forallb (fun c => negb (c =? 45)) s.

(** The five props are all given and truthy. *)
Definition props_given (p : Props) : bool :=
  match truthy_string (imageUrl p), truthy_string (prompt_prop p),
        truthy_string (redirectUrl p), truthy_number (modelLatency p),
        truthy_string (id_prop p) with
  | Some _, Some _, Some _, Some _, Some _ => true
  | _, _, _, _, _ => false
  end.

End Ledger.

Import Ledger.

(* ===================================================================== *)
(** * Properties *)
(* ===================================================================== *)

Unset Implicit Arguments.

(** ** Rounding of binary64 products *)

Section Rounding.

Local Open Scope Z_scope.

Lemma iter_pos_nat {A} (f : A -> A) (p : positive) (x : A) :
  iter_pos f p x = Nat.iter (Pos.to_nat p) f x.
Proof.
  revert x; induction p as [p IH | p IH |]; intro x; simpl iter_pos.
  - rewrite !IH, Pos2Nat.inj_xI, <- Nat.iter_add, <- Nat.iter_succ_r.
    f_equal; lia.
  - rewrite !IH, Pos2Nat.inj_xO, <- Nat.iter_add. f_equal; lia.
  - reflexivity.
Qed.

Lemma shr_1_m mrs : 0 <= shr_m mrs -> shr_m (shr_1 mrs) = shr_m mrs / 2.
Proof.
  destruct mrs as [m r s]; simpl; intro H.
  destruct m as [| [p | p |] | p]; simpl; try reflexivity; try lia.
  - apply Z.div_unique with (r := 1); lia.
  - apply Z.div_unique with (r := 0); lia.
Qed.

Lemma shr_1_r mrs : 0 <= shr_m mrs -> shr_r (shr_1 mrs) = Z.odd (shr_m mrs).
Proof.
  destruct mrs as [m r s]; simpl; intro H.
  destruct m as [| [p | p |] | p]; simpl; try reflexivity; lia.
Qed.

Lemma shr_iter_m (n : nat) mrs :
  0 <= shr_m mrs ->
  shr_m (Nat.iter n shr_1 mrs) = shr_m mrs / 2 ^ Z.of_nat n.
Proof.
  intro H; induction n as [| n IH].
  - simpl. now rewrite Z.div_1_r.
  - rewrite Nat2Z.inj_succ, Z.pow_succ_r by lia. simpl Nat.iter.
    rewrite shr_1_m, IH.
    + rewrite Z.div_div by lia. f_equal; lia.
    + rewrite IH. apply Z.div_pos; lia.
Qed.

Lemma shr_iter_r (n : nat) mrs :
  0 <= shr_m mrs ->
  shr_r (Nat.iter (S n) shr_1 mrs) = Z.odd (shr_m mrs / 2 ^ Z.of_nat n).
Proof.
  intro H. simpl Nat.iter. rewrite shr_1_r, shr_iter_m; auto.
  rewrite shr_iter_m by auto. apply Z.div_pos; lia.
Qed.

Lemma digits2_bounds (p : positive) :
  2 ^ (Zpos (digits2_pos p) - 1) <= Zpos p < 2 ^ Zpos (digits2_pos p).
Proof.
  induction p as [p IH | p IH |]; simpl digits2_pos.
  - rewrite Pos2Z.inj_succ.
    replace (Z.succ (Zpos (digits2_pos p)) - 1) with (Z.succ (Zpos (digits2_pos p) - 1)) by lia.
    rewrite !Z.pow_succ_r by lia. lia.
  - rewrite Pos2Z.inj_succ.
    replace (Z.succ (Zpos (digits2_pos p)) - 1) with (Z.succ (Zpos (digits2_pos p) - 1)) by lia.
    rewrite !Z.pow_succ_r by lia. lia.
  - simpl. lia.
Qed.

Lemma Zdigits2_le (z k : Z) : 0 <= z -> 0 <= k -> z < 2 ^ k -> Zdigits2 z <= k.
Proof.
  intros Hz Hk Hlt. destruct z as [| p | p]; simpl; try lia.
  destruct (digits2_bounds p) as [Hlo _].
  destruct (Z_le_gt_dec (Zpos (digits2_pos p)) k) as [|Hgt]; auto.
  exfalso.
  assert (2 ^ k <= 2 ^ (Zpos (digits2_pos p) - 1)) by (apply Z.pow_le_mono_r; lia).
  lia.
Qed.

Lemma shr_fexp_exact (m ex : Z) mrs e' :
  0 <= m ->
  shr_fexp prec emax m ex loc_Exact = (mrs, e') ->
  e' = ex + shift_of m ex
  /\ shr_m mrs = m / 2 ^ shift_of m ex
  /\ (shr_r mrs = true ->
      0 < shift_of m ex /\ Z.odd (m / 2 ^ (shift_of m ex - 1)) = true).
Proof.
  intros Hm. unfold shr_fexp, shift_of, shr. simpl shr_record_of_loc.
  destruct (fexp prec emax (Zdigits2 m + ex) - ex) as [| p | p] eqn:Hn;
    intro H; inversion H; subst; clear H.
  - rewrite Z.max_r by lia. simpl. rewrite Z.div_1_r.
    repeat split; try lia; discriminate.
  - rewrite Z.max_l by lia. rewrite iter_pos_nat.
    split; [reflexivity | split].
    + rewrite shr_iter_m by (simpl; lia). now rewrite positive_nat_Z.
    + intros Hr. split; [lia |].
      destruct (Pos.to_nat p) as [| k] eqn:Hk; [lia |].
      rewrite shr_iter_r in Hr by (simpl; lia). simpl shr_m in Hr.
      replace (Zpos p - 1) with (Z.of_nat k) by lia. exact Hr.
  - rewrite Z.max_r by lia. simpl. rewrite Z.div_1_r.
    repeat split; try lia; discriminate.
Qed.

Lemma round_nearest_even_cases mrs :
  let m1 := round_nearest_even (shr_m mrs) (loc_of_shr_record mrs) in
  m1 = shr_m mrs \/ (m1 = shr_m mrs + 1 /\ shr_r mrs = true).
Proof.
  destruct mrs as [m [|] [|]]; simpl; auto.
  destruct (Z.even m); auto.
Qed.

(** rounding to nearest moves the scaled mantissa by at most half a unit *)
Lemma round_up_bound (M N m1 : Z) :
  0 <= M -> 0 <= N ->
  (m1 = M / 2 ^ N \/
   (m1 = M / 2 ^ N + 1 /\ 0 < N /\ Z.odd (M / 2 ^ (N - 1)) = true)) ->
  0 <= m1 /\ 2 * (m1 * 2 ^ N) <= 2 * M + 2 ^ N.
Proof.
  intros HM HN Hc.
  assert (Hp : 0 < 2 ^ N) by (apply Z.pow_pos_nonneg; lia).
  pose proof (Z.div_pos M (2 ^ N) HM Hp) as Hq.
  pose proof (Z.mul_div_le M (2 ^ N) Hp) as Hle.
  destruct Hc as [-> | (-> & HN' & Hodd)].
  - split; [lia | nia].
  - split; [lia |].
    assert (Hp' : 0 < 2 ^ (N - 1)) by (apply Z.pow_pos_nonneg; lia).
    assert (E2 : 2 ^ N = 2 * 2 ^ (N - 1)).
    { replace N with (Z.succ (N - 1)) at 1 by lia. apply Z.pow_succ_r; lia. }
    set (h := M / 2 ^ (N - 1)) in *.
    assert (Hh : M / 2 ^ N = h / 2).
    { unfold h. rewrite E2, Z.mul_comm, <- Z.div_div by lia. reflexivity. }
    pose proof (Z.mul_div_le M (2 ^ (N - 1)) Hp') as Hle'. fold h in Hle'.
    assert (Hmod : h = 2 * (h / 2) + 1).
    { pose proof (Z.div_mod h 2 ltac:(lia)) as D.
      rewrite Zmod_odd, Hodd in D. exact D. }
    rewrite Hh, E2. nia.
Qed.

Lemma of_Z_500 : of_Z 500 = S754_finite false 8796093022208000%positive (-44).
Proof. reflexivity. Qed.

Lemma of_Z_1 : of_Z 1 = S754_finite false 4503599627370496 (-52).
Proof. reflexivity. Qed.

Lemma fexp_le (d x : Z) : d + x <= 9 -> fexp prec emax (d + x) <= -44.
Proof. unfold fexp, emin, prec, emax. lia. Qed.

Lemma random_finite_bounds (m : positive) (e : Z) :
  is_random (S754_finite false m e) = true ->
  -1074 <= e <= -52 /\ Zpos m < 2 ^ (- e) /\ Zpos m < 2 ^ 53.
Proof.
  unfold is_random, bounded, canonical_mantissa.
  rewrite !andb_true_iff, Z.eqb_eq, Z.leb_le, of_Z_1.
  intros [[Hc _] Hlt].
  assert (Hd : Zpos (digits2_pos m) <= 53 /\ -1074 <= e).
  { revert Hc. unfold fexp, emin, prec, emax. lia. }
  destruct Hd as [Hd He].
  assert (Hm : Zpos m < 2 ^ 53).
  { destruct (digits2_bounds m) as [_ Hup].
    eapply Z.lt_le_trans; [exact Hup | apply Z.pow_le_mono_r; lia]. }
  unfold SFltb, SFcompare in Hlt.
  destruct (e ?= -52) eqn:Hcmp; try discriminate.
  - apply Z.compare_eq in Hcmp. subst e.
    destruct (Pos.compare_cont Eq m 4503599627370496) eqn:Hp; try discriminate.
    assert (Hz : Zpos m < Zpos 4503599627370496) by exact Hp.
    clear Hp Hc. simpl Z.opp.
    change (2 ^ 52) with 4503599627370496. lia.
  - rewrite Z.compare_lt_iff in Hcmp.
    repeat split; try lia.
    eapply Z.lt_le_trans; [exact Hm | apply Z.pow_le_mono_r; lia].
Qed.

Theorem floor_mul_500 (r : number) :
  is_random r = true ->
  exists n, 0 <= n <= 499 /\ Math_floor (mul r (of_Z 500)) = of_Z n.
Proof.
  destruct r as [[|] | | | [|] m e]; try discriminate.
  { intros _. exists 0. split; [lia | reflexivity]. }
  intro Hr. apply random_finite_bounds in Hr.
  destruct Hr as ([He1 He2] & HmE & Hm53).
  rewrite of_Z_500. unfold mul, SFmul. simpl xorb.
  set (M := Zpos (m * 8796093022208000%positive)). set (ex := e + -44).
  set (E := - e) in *.
  assert (HM : M = Zpos m * (500 * 2 ^ 44)) by (unfold M; rewrite Pos2Z.inj_mul; reflexivity).
  assert (HM0 : 0 < M) by (unfold M; lia).
  assert (P44 : 2 ^ 44 = 17592186044416) by reflexivity.
  assert (P53 : 2 ^ 53 = 9007199254740992) by reflexivity.
  assert (PE : 0 < 2 ^ E) by (apply Z.pow_pos_nonneg; lia).
  (* digits of the exact product *)
  assert (HdM1 : Zdigits2 M <= 106).
  { apply Zdigits2_le; [lia | lia |].
    change (2 ^ 106) with (2 ^ 53 * 2 ^ 53). rewrite HM, P44. rewrite P53 in *. nia. }
  assert (HdM2 : Zdigits2 M <= 53 + E).
  { apply Zdigits2_le; [lia | lia |].
    rewrite Z.pow_add_r by lia. rewrite HM, P44. rewrite P53 in *. nia. }
  unfold binary_round_aux.
  destruct (shr_fexp prec emax M ex loc_Exact) as [mrs' e'] eqn:S1.
  apply shr_fexp_exact in S1; [| lia].
  destruct S1 as (He' & Hm' & Hr').
  set (N := shift_of M ex) in *.
  assert (HN : 0 <= N <= 53).
  { unfold N, shift_of, fexp, emin, prec, emax, ex, E in *. lia. }
  assert (He'44 : e' <= -44).
  { subst e'. unfold N, shift_of.
    pose proof (fexp_le (Zdigits2 M) ex ltac:(unfold ex, E in *; lia)).
    unfold ex, E in *. lia. }
  set (m1 := round_nearest_even (shr_m mrs') (loc_of_shr_record mrs')).
  assert (Hm1 : 0 <= m1 /\ 2 * (m1 * 2 ^ N) <= 2 * M + 2 ^ N).
  { apply round_up_bound; try lia.
    destruct (round_nearest_even_cases mrs') as [H1 | [H1 H2]]; fold m1 in H1.
    - left. now rewrite H1, Hm'.
    - right. rewrite H1, Hm'. split; [reflexivity | apply Hr', H2]. }
  destruct Hm1 as [Hm1p Hm1b].
  set (T := - e').
  assert (HT : 44 + E = T + N) by (unfold T, ex, E in *; lia).
  assert (PT : 0 < 2 ^ T) by (apply Z.pow_pos_nonneg; unfold T; lia).
  assert (PN : 0 < 2 ^ N) by (apply Z.pow_pos_nonneg; lia).
  assert (PN53 : 2 ^ N <= 2 ^ 53) by (apply Z.pow_le_mono_r; lia).
  assert (Hsplit : 2 ^ 44 * 2 ^ E = 2 ^ T * 2 ^ N).
  { rewrite <- !Z.pow_add_r by (unfold T; lia). now rewrite HT. }
  assert (Hm1T : m1 < 500 * 2 ^ T).
  { rewrite HM, P44, P53 in *. nia. }
  destruct (shr_fexp prec emax m1 e' loc_Exact) as [mrs'' e''] eqn:S2.
  apply shr_fexp_exact in S2; [| lia].
  destruct S2 as (He'' & Hm'' & _).
  set (N2 := shift_of m1 e') in *.
  assert (HN2 : 0 <= N2) by (unfold N2, shift_of; lia).
  assert (Hdm1 : Zdigits2 m1 <= 9 + T).
  { apply Zdigits2_le; try (unfold T; lia).
    rewrite Z.pow_add_r by (unfold T; lia). change (2 ^ 9) with 512. lia. }
  assert (He''44 : e'' <= -44).
  { subst e''. unfold N2, shift_of.
    pose proof (fexp_le (Zdigits2 m1) e' ltac:(unfold T in *; lia)). lia. }
  assert (PN2 : 0 < 2 ^ N2) by (apply Z.pow_pos_nonneg; lia).
  assert (Hq : 0 <= shr_m mrs'' /\ shr_m mrs'' * 2 ^ N2 <= m1).
  { rewrite Hm''. split; [apply Z.div_pos; lia |].
    rewrite Z.mul_comm. apply Z.mul_div_le; lia. }
  destruct (shr_m mrs'') as [| q | q] eqn:Hs; [| | lia].
  { exists 0. split; [lia | reflexivity]. }
  replace (e'' <=? emax - prec) with true
    by (symmetry; apply Z.leb_le; unfold emax, prec; lia).
  unfold Math_floor.
  replace (0 <=? e'') with false by (symmetry; apply Z.leb_gt; lia).
  simpl cond_Zopp.
  exists (Zpos q / 2 ^ (- e'')). split; [| reflexivity].
  assert (PT2 : 0 < 2 ^ (- e'')) by (apply Z.pow_pos_nonneg; lia).
  assert (Hsplit2 : 2 ^ T = 2 ^ (- e'') * 2 ^ N2).
  { rewrite <- Z.pow_add_r by lia. f_equal. unfold T. lia. }
  split; [apply Z.div_pos; lia |].
  assert (Zpos q / 2 ^ (- e'') < 500); [| lia].
  apply Z.div_lt_upper_bound; [lia |].
  destruct Hq as [_ Hq]. rewrite Hsplit2 in Hm1T. nia.
Qed.

Lemma same_eq (x y : number) : same x y = true -> x = y.
Proof.
  destruct x as [a | a | | a m e], y as [b | b | | b n f]; simpl;
    try discriminate; try reflexivity.
  - intro H. apply Bool.eqb_prop in H. now subst.
  - intro H. apply Bool.eqb_prop in H. now subst.
  - rewrite !andb_true_iff, Pos.eqb_eq, Z.eqb_eq.
    intros [[H1 H2] H3]. apply Bool.eqb_prop in H1. now subst.
Qed.

Lemma add_200_table :
  forallb (fun j => same (add (of_Z (Z.of_nat j)) (of_Z 200))
                         (of_Z (Z.of_nat j + 200)))
          (seq 0 500) = true.
Proof. vm_compute. reflexivity. Qed.

Lemma add_200 (n : Z) :
  0 <= n <= 499 -> add (of_Z n) (of_Z 200) = of_Z (n + 200).
Proof.
  intro Hn. pose proof add_200_table as T.
  rewrite forallb_forall in T.
  specialize (T (Z.to_nat n)).
  rewrite Z2Nat.id in T by lia.
  apply same_eq, T, in_seq. lia.
Qed.

(** The latency of a response is an integer from 200 to 699. *)
Lemma latency_range (r : number) :
  is_random r = true ->
  exists n, 200 <= n <= 699 /\ latency r = of_Z n.
Proof.
  intro Hr. destruct (floor_mul_500 r Hr) as (n & Hn & E).
  exists (n + 200). split; [lia |].
  unfold latency. rewrite E. now apply add_200.
Qed.

End Rounding.

(** ** The schema *)

Section Schema.

Lemma schema_valid_iff (data : GenerateFormValues) :
  isEmptyObject (generateFormSchema data) = true <->
  (1 <= Js.length (url data) /\ 3 <= Js.length (prompt data) <= 160)%nat.
Proof.
  unfold isEmptyObject, generateFormSchema, first_issue, min, max; simpl.
  destruct (Nat.ltb_spec (Js.length (url data)) 1);
    destruct (Nat.ltb_spec (Js.length (prompt data)) 3);
    destruct (Nat.ltb_spec 160 (Js.length (prompt data)));
    split; intro; try discriminate; try reflexivity; lia.
Qed.

Lemma onSubmit_invalid (d : Draw) (c : Controller) :
  isEmptyObject (generateFormSchema (values (form c))) = false ->
  onSubmit d c =
  with_form {| values := values (form c);
               errors := generateFormSchema (values (form c));
               isValid := isValid (form c) |} c.
Proof. unfold onSubmit. now intros ->. Qed.

Lemma onSubmit_valid (d : Draw) (c : Controller) :
  isEmptyObject (generateFormSchema (values (form c))) = true ->
  onSubmit d c =
  let '(h, t, p) := handleSubmit_start d (values (form c)) (hooks c) in
  {| hooks := h;
     form := {| values := values (form c); errors := no_errors;
                isValid := isValid (form c) |};
     pending := pending c ++ match p with Some p => [p] | None => [] end;
     log := log c ++ CallOnValid (values (form c)) :: t |}.
Proof. unfold onSubmit. now intros ->. Qed.

End Schema.

(** ** Traces *)

Ltac count_calls :=
  unfold calls; rewrite ?filter_app, ?length_app; simpl; lia.

Section Traces.

Lemma calls_app (t u : trace) : calls (t ++ u) = (calls t + calls u)%nat.
Proof. unfold calls. now rewrite filter_app, length_app. Qed.

Lemma clipboard_writes_app (t u : trace) :
  clipboard_writes (t ++ u) = clipboard_writes t ++ clipboard_writes u.
Proof. unfold clipboard_writes. apply flat_map_app. Qed.

End Traces.

(** C1: with an empty url, or a prompt shorter than 3 or longer than 160
    code units, the submit stores the message of the failing field and
    does nothing else: the four state cells, the running timers and the
    trace are as before, so the callback [handleSubmit] was not called. *)
Theorem submit_invalid_input (d : Draw) (c : Controller) :
  (url (values (form c)) = []
   \/ Js.length (prompt (values (form c))) < 3
   \/ 160 < Js.length (prompt (values (form c))))%nat ->
  let c' := onSubmit d c in
  hooks c' = hooks c /\ pending c' = pending c /\ log c' = log c
  /\ calls (log c') = calls (log c)
  /\ values (form c') = values (form c)
  /\ (url (values (form c)) = [] ->
      url_error (errors (form c')) = Some (lit "URL is required"))
  /\ ((Js.length (prompt (values (form c))) < 3)%nat ->
      prompt_error (errors (form c'))
      = Some (lit "Prompt must be at least 3 characters"))
  /\ ((160 < Js.length (prompt (values (form c))))%nat ->
      prompt_error (errors (form c'))
      = Some (lit "String must contain at most 160 character(s)")).
Proof.
  intros Hbad c'.
  assert (Hinv : isEmptyObject (generateFormSchema (values (form c))) = false).
  { destruct (isEmptyObject _) eqn:E; [| reflexivity].
    apply schema_valid_iff in E. destruct Hbad as [H | [H | H]]; [| lia | lia].
    rewrite H in E. simpl in E. lia. }
  unfold c'. rewrite (onSubmit_invalid d c Hinv). simpl.
  repeat split; try reflexivity.
  - intros ->. reflexivity.
  - intro H. unfold first_issue, min.
    apply Nat.ltb_lt in H. now rewrite H.
  - intro H. unfold first_issue, min, max.
    replace (Nat.ltb (Js.length (prompt (values (form c)))) 3) with false
      by (symmetry; apply Nat.ltb_ge; lia).
    apply Nat.ltb_lt in H. now rewrite H.
Qed.

Lemma submit_invalid_input_witness :
  let c := with_form (onChange Prompt (lit "ab") useForm) first_render in
  let d := {| random := S754_zero false; now := 0; suffix := [] |} in
  hooks (onSubmit d c) = hooks c
  /\ url_error (errors (form (onSubmit d c))) = Some (lit "URL is required")
  /\ prompt_error (errors (form (onSubmit d c)))
     = Some (lit "Prompt must be at least 3 characters").
Proof.
  intros c d.
  destruct (submit_invalid_input d c) as (H1 & _ & _ & _ & _ & H2 & H3 & _).
  - left. reflexivity.
  - split; [exact H1 | split; [apply H2; reflexivity | apply H3]].
    vm_compute. lia.
Defined.

(** ** [encodeURIComponent] *)

Section Encode.

Local Open Scope N_scope.

Lemma unescaped_below (c : unit16) : unescaped c = true -> c < 127.
Proof.
  unfold unescaped, is_alnum, is_mark. simpl existsb.
  rewrite !orb_true_iff, !andb_true_iff, !N.leb_le, !N.eqb_eq. lia.
Qed.

Lemma unescaped_not_surrogate (c : unit16) :
  unescaped c = true -> is_trail c = false /\ is_lead c = false.
Proof.
  intro H. apply unescaped_below in H. unfold is_trail, is_lead.
  split; apply andb_false_iff; left; apply N.leb_gt; lia.
Qed.

Lemma bind_str_return (r : completion jsstring) f :
  (exists t, bind_str r f = Return t) <-> (exists t, r = Return t).
Proof.
  destruct r; simpl; split; intros [t H]; eauto; discriminate.
Qed.

(** [encodeURIComponent] returns exactly on the strings without an
    unpaired surrogate; the induction follows the two-unit steps of the
    function. *)
Lemma encode_returns_upto (n : nat) (s : jsstring) :
  (List.length s <= n)%nat ->
  (isWellFormed s = true <-> exists t, encodeURIComponent s = Return t).
Proof.
  revert s. induction n as [| n IH]; intros s Hlen.
  - destruct s; [| simpl in Hlen; lia]. simpl. split; eauto.
  - destruct s as [| c rest]; [simpl; split; eauto |].
    simpl in Hlen. simpl encodeURIComponent. simpl isWellFormed.
    destruct (unescaped c) eqn:Hu.
    + destruct (unescaped_not_surrogate c Hu) as [-> ->].
      rewrite bind_str_return. apply IH. lia.
    + destruct (is_trail c).
      * split; [discriminate | intros [t H]; discriminate].
      * destruct (is_lead c).
        -- destruct rest as [| d rest'].
           ++ split; [discriminate | intros [t H]; discriminate].
           ++ destruct (is_trail d); simpl.
              ** rewrite bind_str_return. apply IH. simpl in Hlen. lia.
              ** split; [discriminate | intros [t H]; discriminate].
        -- rewrite bind_str_return. apply IH. lia.
Qed.

Lemma encode_returns (s : jsstring) :
  isWellFormed s = true <-> exists t, encodeURIComponent s = Return t.
Proof. apply (encode_returns_upto (List.length s)). lia. Qed.

Lemma encode_throws (s : jsstring) :
  isWellFormed s = false <-> exists e, encodeURIComponent s = Throw e.
Proof.
  pose proof (encode_returns s) as [H1 H2].
  destruct (encodeURIComponent s) as [t | e] eqn:E.
  - rewrite H2 by eauto. split; [discriminate | intros [e G]; discriminate].
  - split; [eauto | intros _].
    destruct (isWellFormed s); [| reflexivity].
    destruct (H1 eq_refl); discriminate.
Qed.

Lemma encode_example :
  encodeURIComponent (lit "https://example.com")
  = Return (lit "https%3A%2F%2Fexample.com").
Proof. reflexivity. Qed.

Lemma encode_utf8_example :
  encodeURIComponent (lit "a b" ++ [0xE9; 0x20AC; 0xD83C; 0xDF89])
  = Return (lit "a%20b%C3%A9%E2%82%AC%F0%9F%8E%89").
Proof. reflexivity. Qed.

End Encode.

(** ** The states of the page *)

Section Reachable.

Lemma setValue_validated (name : field) (v : jsstring) (f : FormState) :
  isValid (setValue name v true f)
  = isEmptyObject (generateFormSchema (values (setValue name v true f))).
Proof. reflexivity. Qed.

Lemma start_cases (d : Draw) (data : GenerateFormValues) (h : Hooks) :
  (exists enc,
      encodeURIComponent (url data) = Return enc
      /\ handleSubmit_start d data h
         = ({| isLoading := true; error := None; response := None;
               submittedURL := submittedURL h |},
            [SetTimeout 1000],
            Some {| awaited_response := mockResponse d enc;
                    awaited_url := url data |}))
  \/ (exists e,
      encodeURIComponent (url data) = Throw e
      /\ handleSubmit_start d data h
         = ({| isLoading := false; error := Some failed_message;
               response := None; submittedURL := submittedURL h |},
            [ToastError failed_message], None)).
Proof.
  unfold handleSubmit_start.
  destruct (encodeURIComponent (url data)) as [enc | e]; [left | right]; eauto.
Qed.

Lemma coherent_first : coherent first_render.
Proof. split; simpl; [auto | discriminate]. Qed.

Lemma coherent_mount (p : Props) : coherent (mount p).
Proof.
  unfold mount, useEffect.
  destruct (truthy_string (imageUrl p)), (truthy_string (prompt_prop p)),
    (truthy_string (redirectUrl p)), (truthy_number (modelLatency p)),
    (truthy_string (id_prop p)); try apply coherent_first.
  split; simpl; [auto | discriminate].
Qed.

Lemma coherent_onSubmit (d : Draw) (c : Controller) :
  coherent c -> isLoading (hooks c) = false -> coherent (onSubmit d c).
Proof.
  intros [Hc Hv] Hl. rewrite Hl in Hc. destruct Hc as [Hp He].
  destruct (isEmptyObject (generateFormSchema (values (form c)))) eqn:E.
  - rewrite (onSubmit_valid d c E).
    destruct (start_cases d (values (form c)) (hooks c))
      as [(enc & _ & ->) | (e & _ & ->)]; split; simpl; auto.
    rewrite Hp. simpl. eauto.
    rewrite Hp. simpl. auto.
  - rewrite (onSubmit_invalid d c E). split; simpl.
    + rewrite Hl. auto.
    + intro H. apply Hv in H. congruence.
Qed.

Lemma coherent_with_form (f : FormState) (c : Controller) :
  coherent c ->
  (isValid f = true ->
   isEmptyObject (generateFormSchema (values f)) = true) ->
  coherent (with_form f c).
Proof. intros [H1 _] H2. split; [exact H1 | exact H2]. Qed.

Lemma coherent_step (a : action) (c c' : Controller) :
  coherent c -> perform a c = Some c' -> coherent c'.
Proof.
  intros Hc. destruct a as [name v | i | d | | throws | origin cb]; simpl.
  - intro H; inversion H; subst; clear H.
    apply coherent_with_form; [exact Hc |]. unfold onChange.
    intro H. now rewrite setValue_validated in H.
  - destruct (nth_error promptSuggestions i); [| discriminate].
    intro H; inversion H; subst; clear H.
    apply coherent_with_form; [exact Hc |]. unfold handleSuggestionClick.
    intro H. now rewrite setValue_validated in H.
  - destruct (isLoading (hooks c)) eqn:Hl; [discriminate |]. simpl.
    destruct (negb (isValid (form c)) || negb (is_random (random d)));
      [discriminate |].
    intro H; inversion H; subst; clear H. now apply coherent_onSubmit.
  - unfold onTimer. destruct Hc as [H1 Hv].
    destruct (pending c) as [| p rest] eqn:Hp; [discriminate |].
    intro H; inversion H; subst; clear H.
    destruct (isLoading (hooks c)).
    + destruct H1 as (_ & He & q & Hq). inversion Hq; subst.
      split; simpl; auto.
    + destruct H1 as [H1 _]. discriminate.
  - destruct (response (hooks c)); [| discriminate].
    intro H; inversion H; subst; clear H. exact Hc.
  - destruct (response (hooks c)); [| discriminate].
    intro H; inversion H; subst; clear H. exact Hc.
Qed.

Lemma run_reachable (l : list action) (c c' : Controller) :
  reachable c -> run l c = Some c' -> reachable c'.
Proof.
  revert c. induction l as [| a l IH]; intros c Hc; simpl.
  - now intros [= <-].
  - destruct (perform a c) as [c1 |] eqn:E; [| discriminate].
    apply IH. eapply reach_step; eauto.
Qed.

Lemma reachable_coherent (c : Controller) : reachable c -> coherent c.
Proof.
  induction 1 as [| p | a c c' _ IH Hs].
  - apply coherent_first.
  - apply coherent_mount.
  - exact (coherent_step a c c' IH Hs).
Qed.

End Reachable.

(** ** The life cycle of a request *)

Section Lifecycle.

Lemma requestState_success (h : Hooks) (r : QrGenerateResponse) :
  requestState h = Success r -> response h = Some r.
Proof.
  unfold requestState.
  destruct (isLoading h); [discriminate |].
  destruct (error h); [discriminate |].
  destruct (response h); [| discriminate].
  now intros [= ->].
Qed.

Lemma submit_well_formed (d : Draw) (c : Controller) :
  pending c = [] ->
  isEmptyObject (generateFormSchema (values (form c))) = true ->
  isWellFormed (url (values (form c))) = true ->
  exists enc,
    encodeURIComponent (url (values (form c))) = Return enc
    /\ submit d c =
       [ {| hooks := {| isLoading := true; error := None; response := None;
                        submittedURL := submittedURL (hooks c) |};
            form := {| values := values (form c); errors := no_errors;
                       isValid := isValid (form c) |};
            pending := [ {| awaited_response := mockResponse d enc;
                            awaited_url := url (values (form c)) |} ];
            log := log c ++ [CallOnValid (values (form c)); SetTimeout 1000] |};
         {| hooks := {| isLoading := false; error := None;
                        response := Some (mockResponse d enc);
                        submittedURL := Some (url (values (form c))) |};
            form := {| values := values (form c); errors := no_errors;
                       isValid := isValid (form c) |};
            pending := [];
            log := (log c ++ [CallOnValid (values (form c)); SetTimeout 1000])
                   ++ [ToastSuccess generated_message] |} ].
Proof.
  intros Hp Hv Hw. apply encode_returns in Hw. destruct Hw as [enc Henc].
  exists enc. split; [exact Henc |].
  unfold submit. rewrite (onSubmit_valid d c Hv).
  destruct (start_cases d (values (form c)) (hooks c))
    as [(enc' & E & ->) | (e & E & _)]; [| congruence].
  assert (enc' = enc) by congruence. subst enc'.
  rewrite Hp. reflexivity.
Qed.

Lemma submit_ill_formed (d : Draw) (c : Controller) :
  pending c = [] ->
  isEmptyObject (generateFormSchema (values (form c))) = true ->
  isWellFormed (url (values (form c))) = false ->
  submit d c =
  [ {| hooks := {| isLoading := false; error := Some failed_message;
                   response := None;
                   submittedURL := submittedURL (hooks c) |};
       form := {| values := values (form c); errors := no_errors;
                  isValid := isValid (form c) |};
       pending := [];
       log := log c ++ [CallOnValid (values (form c));
                        ToastError failed_message] |} ].
Proof.
  intros Hp Hv Hw. apply encode_throws in Hw. destruct Hw as [e He].
  unfold submit. rewrite (onSubmit_valid d c Hv).
  destruct (start_cases d (values (form c)) (hooks c))
    as [(enc & E & _) | (e' & E & ->)]; [congruence |].
  rewrite Hp. reflexivity.
Qed.

End Lifecycle.

(** C3: in every state of the page a result is held exactly when the
    request state is Success; no result is held while Loading and none
    after a failure. *)
Theorem result_iff_success (c : Controller) :
  reachable c ->
  (forall r, response (hooks c) = Some r <->
             requestState (hooks c) = Success r)
  /\ (requestState (hooks c) = Loading -> response (hooks c) = None)
  /\ (forall m, requestState (hooks c) = Failed m ->
                response (hooks c) = None).
Proof.
  intro Hr. apply reachable_coherent in Hr. destruct Hr as [Hc _].
  unfold requestState.
  destruct (isLoading (hooks c)).
  - destruct Hc as (Hn & _ & _). rewrite Hn.
    repeat split; try discriminate; auto.
  - destruct Hc as (_ & [He | Hn]).
    + rewrite He. destruct (response (hooks c)) as [r0 |].
      * repeat split; try discriminate; congruence.
      * repeat split; try discriminate; auto.
    + rewrite Hn. destruct (error (hooks c));
        repeat split; try discriminate; auto.
Qed.

Lemma result_iff_success_witness :
  exists c,
    reachable c /\ requestState (hooks c) = Loading
    /\ response (hooks c) = None.
Proof.
  pose (d := {| random := S754_zero false; now := 0; suffix := [] |}).
  pose (f := onChange Prompt (lit "A city view with clouds")
               (onChange Url (lit "https://example.com") useForm)).
  pose (c := onSubmit d (with_form f first_render)).
  assert (R : reachable c).
  { apply (run_reachable
             [ChangeField Url (lit "https://example.com");
              ChangeField Prompt (lit "A city view with clouds");
              ClickSubmit d] first_render c reach_first).
    vm_compute. reflexivity. }
  assert (L : requestState (hooks c) = Loading) by (vm_compute; reflexivity).
  exists c. split; [exact R | split; [exact L |]].
  exact (proj1 (proj2 (result_iff_success c R)) L).
Defined.

(** C2, the input on which the claim fails: the url [\uD800] with the
    prompt [abc] passes the schema, yet the submit goes from Idle to
    Failed in one update and Loading is never among its states. *)
Lemma submit_lone_surrogate_skips_loading :
  let f := onChange Prompt (lit "abc") (onChange Url [0xD800%N] useForm) in
  let c := with_form f first_render in
  let d := {| random := S754_zero false; now := 0; suffix := [] |} in
  reachable c
  /\ isEmptyObject (generateFormSchema (values (form c))) = true
  /\ button_disabled (render c) = false
  /\ requestState (hooks c) = Idle
  /\ map (fun x => requestState (hooks x)) (submit d c)
     = [Failed failed_message]
  /\ ~ In Loading (map (fun x => requestState (hooks x)) (submit d c)).
Proof.
  intros f c d. split.
  - apply (run_reachable
             [ChangeField Url [0xD800%N]; ChangeField Prompt (lit "abc")]
             first_render c reach_first).
    reflexivity.
  - repeat split; try reflexivity.
    vm_compute. intros [H | []]. discriminate H.
Qed.

(** C2, amended: for a valid input whose url has no unpaired surrogate,
    one submit calls the handler once and goes through Loading to
    Success; while Loading the button is disabled and no submit is
    offered, and in every state at most one request is in flight. *)
Theorem submit_once_through_loading (d : Draw) (c : Controller) :
  reachable c ->
  (List.length (pending c) <= 1)%nat
  /\ (isLoading (hooks c) = true ->
      button_disabled (render c) = true
      /\ forall d', perform (ClickSubmit d') c = None)
  /\ (isLoading (hooks c) = false ->
      isEmptyObject (generateFormSchema (values (form c))) = true ->
      isWellFormed (url (values (form c))) = true ->
      exists c1 c2 r,
        submit d c = [c1; c2]
        /\ requestState (hooks c1) = Loading
        /\ requestState (hooks c2) = Success r
        /\ calls (log c1) = S (calls (log c))
        /\ calls (log c2) = S (calls (log c))
        /\ List.length (pending c1) = 1%nat
        /\ pending c2 = []
        /\ button_disabled (render c1) = true
        /\ forall d', perform (ClickSubmit d') c1 = None).
Proof.
  intro Hr. apply reachable_coherent in Hr. destruct Hr as [Hc _].
  split; [| split].
  - destruct (isLoading (hooks c)).
    + destruct Hc as (_ & _ & p & ->). simpl. lia.
    + destruct Hc as [-> _]. simpl. lia.
  - intro Hl. simpl. rewrite Hl. simpl. auto.
  - intros Hl Hv Hw. rewrite Hl in Hc. destruct Hc as [Hp _].
    destruct (submit_well_formed d c Hp Hv Hw) as (enc & _ & E).
    rewrite E. do 3 eexists. split; [reflexivity |].
    simpl. repeat split; auto; count_calls.
Qed.

Lemma submit_once_through_loading_witness :
  exists c1 c2 r,
    submit {| random := S754_zero false; now := 0; suffix := [] |}
           (with_form (onChange Prompt (lit "abc")
                         (onChange Url (lit "a") useForm)) first_render)
    = [c1; c2]
    /\ requestState (hooks c1) = Loading
    /\ requestState (hooks c2) = Success r.
Proof.
  pose (d := {| random := S754_zero false; now := 0; suffix := [] |}).
  pose (c := with_form (onChange Prompt (lit "abc")
                          (onChange Url (lit "a") useForm)) first_render).
  assert (R : reachable c).
  { apply (run_reachable
             [ChangeField Url (lit "a"); ChangeField Prompt (lit "abc")]
             first_render c reach_first).
    reflexivity. }
  destruct (submit_once_through_loading d c R) as (_ & _ & H).
  destruct (H eq_refl eq_refl eq_refl) as (c1 & c2 & r & E & L & S & _).
  exists c1, c2, r. auto.
Defined.

(** C4: when the [try] block throws, the request state becomes Failed
    with the message of the handler, which is not empty; a result of an
    earlier submit is cleared, the handler was called once and started
    no timer, so nothing is tried again. *)
Theorem submit_throw_fails (d : Draw) (c : Controller) (e : Js.error) :
  isEmptyObject (generateFormSchema (values (form c))) = true ->
  encodeURIComponent (url (values (form c))) = Throw e ->
  let c' := onSubmit d c in
  requestState (hooks c') = Failed failed_message
  /\ failed_message <> []
  /\ response (hooks c') = None
  /\ pending c' = pending c
  /\ log c' = log c ++ [CallOnValid (values (form c));
                        ToastError failed_message]
  /\ calls (log c') = S (calls (log c)).
Proof.
  intros Hv He c'. unfold c'. rewrite (onSubmit_valid d c Hv).
  destruct (start_cases d (values (form c)) (hooks c))
    as [(enc & E & _) | (e' & _ & ->)]; [congruence |].
  simpl. rewrite app_nil_r.
  repeat split; try reflexivity; try discriminate. count_calls.
Qed.

Lemma submit_throw_fails_witness :
  let p := {| imageUrl := Some (lit "https://img");
              prompt_prop := Some (lit "abc");
              redirectUrl := Some [0xD800%N];
              modelLatency := Some (of_Z 250);
              id_prop := Some (lit "qr-1") |} in
  let d := {| random := S754_zero false; now := 0; suffix := [] |} in
  response (hooks (mount p)) <> None
  /\ requestState (hooks (onSubmit d (mount p))) = Failed failed_message
  /\ response (hooks (onSubmit d (mount p))) = None.
Proof.
  intros p d.
  destruct (submit_throw_fails d (mount p) URIError eq_refl eq_refl)
    as (H1 & _ & H2 & _).
  split; [discriminate | split; [exact H1 | exact H2]].
Defined.

(** C9, the input on which the claim fails: a valid input whose url is
    the unpaired surrogate [\uD800] reaches the [catch] branch and ends
    in Failed. *)
Lemma submit_lone_surrogate_fails :
  let data := {| url := [0xD800%N]; prompt := lit "abc" |} in
  let c := with_form {| values := data; errors := no_errors;
                        isValid := true |} first_render in
  let d := {| random := S754_zero false; now := 0; suffix := [] |} in
  isEmptyObject (generateFormSchema data) = true
  /\ encodeURIComponent (url data) = Throw URIError
  /\ requestState (hooks (last (submit d c) c)) = Failed failed_message
  /\ error_toasts (log (last (submit d c) c)) = [failed_message].
Proof. repeat split; reflexivity. Qed.

(** C9, amended: a valid input whose url has no unpaired surrogate
    always ends in Success, and the handler does nothing outside the
    component but start the 1000 ms timer and show the success toast;
    a valid input whose url has an unpaired surrogate makes
    [encodeURIComponent] throw and ends in Failed. *)
Theorem submit_ends_by_url (d : Draw) (c : Controller) :
  pending c = [] ->
  isEmptyObject (generateFormSchema (values (form c))) = true ->
  (isWellFormed (url (values (form c))) = true ->
   exists r,
     requestState (hooks (last (submit d c) c)) = Success r
     /\ error (hooks (last (submit d c) c)) = None
     /\ log (last (submit d c) c)
        = log c ++ [CallOnValid (values (form c)); SetTimeout 1000;
                    ToastSuccess generated_message])
  /\ (isWellFormed (url (values (form c))) = false ->
      (exists e, encodeURIComponent (url (values (form c))) = Throw e)
      /\ requestState (hooks (last (submit d c) c)) = Failed failed_message).
Proof.
  intros Hp Hv. split; intro Hw.
  - destruct (submit_well_formed d c Hp Hv Hw) as (enc & _ & E).
    rewrite E. simpl. eexists. repeat split.
    now rewrite <- app_assoc.
  - split; [now apply encode_throws |].
    rewrite (submit_ill_formed d c Hp Hv Hw). reflexivity.
Qed.

Lemma submit_ends_by_url_witness :
  let c := with_form {| values := {| url := lit "https://example.com";
                                     prompt := lit "abc" |};
                        errors := no_errors; isValid := true |}
             first_render in
  let d := {| random := S754_zero false; now := 0; suffix := [] |} in
  exists r, requestState (hooks (last (submit d c) c)) = Success r.
Proof.
  intros c d.
  destruct (submit_ends_by_url d c eq_refl eq_refl) as [H _].
  destruct (H eq_refl) as (r & Hr & _). exists r. exact Hr.
Defined.

(** C5: typing [https://example.com] and [A city view with clouds] and
    submitting goes to Loading and, when the timer fires, to Success
    with the image URL of the QR service for the escaped target; that
    URL is well formed and the latency is a positive integer. *)
Theorem example_round_trip (d : Draw) :
  is_random (random d) = true ->
  exists c1 c2 r n,
    run [ChangeField Url (lit "https://example.com");
         ChangeField Prompt (lit "A city view with clouds");
         ClickSubmit d] first_render = Some c1
    /\ requestState (hooks c1) = Loading
    /\ perform TimerFires c1 = Some c2
    /\ requestState (hooks c2) = Success r
    /\ image_url r
       = lit ("https://api.qrserver.com/v1/create-qr-code/"
              ++ "?size=300x300&data=https%3A%2F%2Fexample.com")%string
    /\ well_formed_url (image_url r) = true
    /\ includes (image_url r) (lit "https%3A%2F%2Fexample.com") = true
    /\ model_latency_ms r = of_Z n
    /\ (0 < n)%Z.
Proof.
  intro Hr. destruct (latency_range (random d) Hr) as (n & Hn & E).
  pose (f := onChange Prompt (lit "A city view with clouds")
               (onChange Url (lit "https://example.com") useForm)).
  pose (c := with_form f first_render).
  assert (Hp : pending c = []) by reflexivity.
  assert (Hv : isEmptyObject (generateFormSchema (values (form c))) = true)
    by reflexivity.
  assert (Hw : isWellFormed (url (values (form c))) = true) by reflexivity.
  destruct (submit_well_formed d c Hp Hv Hw) as (enc & Henc & S).
  assert (enc = lit "https%3A%2F%2Fexample.com").
  { change (url (values (form c))) with (lit "https://example.com") in Henc.
    rewrite encode_example in Henc. congruence. }
  subst enc. unfold submit in S.
  destruct (onTimer (onSubmit d c)) as [c2 |] eqn:T; [| discriminate S].
  injection S as S2.
  exists (onSubmit d c), c2, (mockResponse d (lit "https%3A%2F%2Fexample.com")), n.
  split.
  { cbn [run perform]. fold f. fold c.
    replace (button_disabled (render c)) with false by reflexivity.
    rewrite Hr. reflexivity. }
  split; [reflexivity |].
  split; [exact T |]. rewrite S2.
  repeat split; try reflexivity; [exact E | lia].
Qed.

Lemma example_round_trip_witness :
  exists c1 c2 r n,
    run [ChangeField Url (lit "https://example.com");
         ChangeField Prompt (lit "A city view with clouds");
         ClickSubmit {| random := S754_zero false; now := 0; suffix := [] |}]
        first_render = Some c1
    /\ perform TimerFires c1 = Some c2
    /\ requestState (hooks c2) = Success r
    /\ model_latency_ms r = of_Z n /\ (0 < n)%Z.
Proof.
  destruct (example_round_trip
              {| random := S754_zero false; now := 0; suffix := [] |} eq_refl)
    as (c1 & c2 & r & n & H1 & _ & H2 & H3 & _ & _ & _ & H4 & H5).
  exists c1, c2, r, n. auto.
Defined.

(** C6: in a Success state whose result has the id [qr-123], a click on
    the share button of a page with a clipboard calls [writeText] once,
    with the origin followed by [/start/qr-123]. *)
Theorem share_writes_link (origin : jsstring) (cb : clipboard)
  (c : Controller) (r : QrGenerateResponse) :
  cb <> Missing ->
  requestState (hooks c) = Success r ->
  id r = lit "qr-123" ->
  exists c',
    perform (ClickShare origin cb) c = Some c'
    /\ clipboard_writes (handleShare origin cb (id r))
       = [origin ++ lit "/start/qr-123"]
    /\ clipboard_writes (log c')
       = clipboard_writes (log c) ++ [origin ++ lit "/start/qr-123"]
    /\ hooks c' = hooks c.
Proof.
  intros Hcb Hs Hid. apply requestState_success in Hs.
  simpl. rewrite Hs. eexists. split; [reflexivity |].
  unfold emit; simpl. rewrite clipboard_writes_app, Hid.
  destruct cb; [congruence | |]; auto.
Qed.

Lemma share_writes_link_witness :
  let p := {| imageUrl := Some (lit "https://img");
              prompt_prop := Some (lit "abc");
              redirectUrl := Some (lit "https://example.com");
              modelLatency := Some (of_Z 250);
              id_prop := Some (lit "qr-123") |} in
  exists c',
    perform (ClickShare (lit "https://qr.example") Fulfils) (mount p) = Some c'
    /\ clipboard_writes (log c') = [lit "https://qr.example/start/qr-123"].
Proof.
  intro p.
  destruct (share_writes_link (lit "https://qr.example") Fulfils (mount p)
              {| image_url := lit "https://img";
                 model_latency_ms := of_Z 250;
                 id := lit "qr-123" |})
    as (c' & H1 & _ & H2 & _).
  - discriminate.
  - reflexivity.
  - reflexivity.
  - exists c'. split; [exact H1 | exact H2].
Defined.

(** C7: a click on a suggestion sets the prompt to exactly that text,
    leaves the four state cells, the timers and the trace as they are,
    and a second click with the same text changes nothing. *)
Theorem select_suggestion (s : jsstring) (c : Controller) :
  prompt (values (form (selectSuggestion s c))) = s
  /\ url (values (form (selectSuggestion s c))) = url (values (form c))
  /\ requestState (hooks (selectSuggestion s c)) = requestState (hooks c)
  /\ hooks (selectSuggestion s c) = hooks c
  /\ pending (selectSuggestion s c) = pending c
  /\ log (selectSuggestion s c) = log c
  /\ selectSuggestion s (selectSuggestion s c) = selectSuggestion s c.
Proof. repeat split. Qed.

(** C8, the run on which the code fails the claim: when [writeText]
    returns a promise that is rejected, [handleShare] shows the success
    toast and no failure toast, and the rejection is left unhandled. *)
Theorem share_rejected_not_reported (origin qrId : jsstring) :
  handleShare origin Rejects qrId
  = [ClipboardWriteText (origin ++ lit "/start/" ++ qrId);
     ToastSuccess copied_message; UnhandledRejection]
  /\ error_toasts (handleShare origin Rejects qrId) = []
  /\ success_toasts (handleShare origin Rejects qrId) = [copied_message]
  /\ In UnhandledRejection (handleShare origin Rejects qrId).
Proof. repeat split; try reflexivity. simpl. auto. Qed.

(** ** The latency and the time on the card *)

Section Latency.

Local Open Scope Z_scope.

(** a draw in the middle of the [j]-th of 500 equal parts of [0, 1) *)
Lemma latency_table :
  forallb (fun j =>
             let r := div (of_Z (2 * Z.of_nat j + 1)) (of_Z 1000) in
             is_random r && same (latency r) (of_Z (Z.of_nat j + 200)))
          (seq 0 500) = true.
Proof. vm_compute. reflexivity. Qed.

Lemma time_table :
  forallb (fun j =>
             match toFixed2 (div (of_Z (Z.of_nat j + 200)) (of_Z 1000)) with
             | Some s =>
                 existsb (fun k => str_eqb s (lit "0." ++ decimal (Z.of_nat k)))
                         (seq 20 51)
             | None => false
             end)
          (seq 0 500) = true.
Proof. vm_compute. reflexivity. Qed.

Lemma str_eqb_eq (a b : jsstring) : str_eqb a b = true -> a = b.
Proof.
  revert b. induction a as [| x a IH]; intros [| y b]; simpl;
    try discriminate; auto.
  rewrite andb_true_iff, N.eqb_eq. intros [-> H]. f_equal. auto.
Qed.

Lemma str_eqb_refl (a : jsstring) : str_eqb a a = true.
Proof. induction a; simpl; auto. rewrite N.eqb_refl. auto. Qed.

End Latency.

(** X1: whatever [Math.random()] returns, the latency of a generated
    response is an integer from 200 to 699. *)
Theorem latency_from_200_to_699 (d : Draw) (encodedURL : jsstring) :
  is_random (random d) = true ->
  exists n : Z,
    (200 <= n <= 699)%Z
    /\ model_latency_ms (mockResponse d encodedURL) = of_Z n.
Proof. intro Hr. exact (latency_range (random d) Hr). Qed.

Lemma latency_from_200_to_699_witness :
  exists n : Z,
    (200 <= n <= 699)%Z
    /\ model_latency_ms
         (mockResponse
            {| random := S754_finite false 9007199254740991 (-53);
               now := 0; suffix := [] |} [])
       = of_Z n.
Proof.
  exact (latency_from_200_to_699
           {| random := S754_finite false 9007199254740991 (-53);
              now := 0; suffix := [] |} [] eq_refl).
Defined.

(** X2: each integer from 200 to 699 is the latency of some draw, so
    200 and 699 are both reached and 700 never is. *)
Theorem latency_reaches_every_value (n : Z) :
  (200 <= n <= 699)%Z ->
  exists r, is_random r = true /\ latency r = of_Z n.
Proof.
  intro Hn. pose proof latency_table as T.
  rewrite forallb_forall in T.
  specialize (T (Z.to_nat (n - 200))).
  cbv zeta in T. rewrite Z2Nat.id in T by lia.
  rewrite andb_true_iff in T. destruct T as [T1 T2].
  { apply in_seq. lia. }
  eexists. split; [exact T1 |].
  apply same_eq in T2. rewrite T2. f_equal. lia.
Qed.

Lemma latency_reaches_every_value_witness :
  exists r, is_random r = true /\ latency r = of_Z 699.
Proof. apply (latency_reaches_every_value 699). lia. Defined.

(** X3: the card of a generated response shows the image of the QR
    service and the line [Generated in 0.dds], where [dd] is between 20
    and 70. *)
Theorem card_shows_seconds (d : Draw) (encodedURL : jsstring) :
  is_random (random d) = true ->
  exists k : nat,
    (20 <= k <= 70)%nat
    /\ card (mockResponse d encodedURL)
       = Some {| img_src := qr_endpoint ++ encodedURL;
                 img_alt := lit "Generated QR Code";
                 caption := lit "Generated in " ++
                            (lit "0." ++ decimal (Z.of_nat k)) ++ lit "s" |}.
Proof.
  intro Hr. destruct (latency_range (random d) Hr) as (n & Hn & E).
  pose proof time_table as T. rewrite forallb_forall in T.
  specialize (T (Z.to_nat (n - 200))).
  rewrite Z2Nat.id in T by lia.
  replace (n - 200 + 200)%Z with n in T by lia.
  unfold card, time_prop. simpl model_latency_ms. rewrite E.
  destruct (toFixed2 (div (of_Z n) (of_Z 1000))) as [s |].
  - assert (In (Z.to_nat (n - 200)) (seq 0 500)) as Hin by (apply in_seq; lia).
    apply T in Hin. apply existsb_exists in Hin.
    destruct Hin as (k & Hk & Hs). apply in_seq in Hk.
    apply str_eqb_eq in Hs. subst s.
    exists k. split; [lia | reflexivity].
  - assert (false = true); [| discriminate].
    apply T, in_seq. lia.
Qed.

Lemma card_shows_seconds_witness :
  exists k : nat,
    (20 <= k <= 70)%nat
    /\ option_map caption
         (card (mockResponse
                  {| random := S754_zero false; now := 0; suffix := [] |} []))
       = Some (lit "Generated in " ++
               (lit "0." ++ decimal (Z.of_nat k)) ++ lit "s").
Proof.
  destruct (card_shows_seconds
              {| random := S754_zero false; now := 0; suffix := [] |} []
              eq_refl) as (k & Hk & E).
  exists k. split; [exact Hk |]. rewrite E. reflexivity.
Defined.

(** ** The text of the image URL *)

Section UriText.

Local Open Scope N_scope.

Lemma hex_digit_hex (d : N) :
  d < 16 -> is_hex (hex_digit d) = true /\ is_alnum (hex_digit d) = true.
Proof.
  intro H. unfold is_hex, is_alnum, hex_digit.
  destruct (N.ltb_spec d 10);
    rewrite !orb_true_iff, !andb_true_iff, !N.leb_le; lia.
Qed.

Lemma utf8_octets (cp : N) :
  cp < 0x110000 -> Forall (fun o => o < 256) (utf8 cp).
Proof.
  intro H. unfold utf8.
  destruct (N.ltb_spec cp 0x80); [repeat constructor; lia |].
  destruct (N.ltb_spec cp 0x800).
  { repeat constructor.
    - pose proof (N.Div0.div_lt_upper_bound cp 64 32). lia.
    - pose proof (N.mod_lt cp 64). lia. }
  destruct (N.ltb_spec cp 0x10000).
  { repeat constructor.
    - pose proof (N.Div0.div_lt_upper_bound cp 4096 16). lia.
    - pose proof (N.mod_lt (cp / 64) 64). lia.
    - pose proof (N.mod_lt cp 64). lia. }
  repeat constructor.
  - pose proof (N.Div0.div_lt_upper_bound cp 262144 5). lia.
  - pose proof (N.mod_lt (cp / 4096) 64). lia.
  - pose proof (N.mod_lt (cp / 64) 64). lia.
  - pose proof (N.mod_lt cp 64). lia.
Qed.

Lemma pair_code_point_bound (hi lo : unit16) :
  is_lead hi = true -> is_trail lo = true -> pair_code_point hi lo < 0x110000.
Proof.
  unfold is_lead, is_trail, pair_code_point.
  rewrite !andb_true_iff, !N.leb_le. lia.
Qed.

Lemma unescaped_uri_char (c : unit16) :
  unescaped c = true -> uri_char c = true /\ (c =? 37) = false.
Proof.
  unfold unescaped, uri_char, is_mark. intro H. split.
  - apply orb_true_iff in H. destruct H as [H | H]; [now rewrite H |].
    apply orb_true_iff. right. simpl in *.
    repeat (apply orb_true_iff in H; destruct H as [H | H];
            [rewrite H; repeat rewrite orb_true_r; reflexivity |]).
    discriminate.
  - apply N.eqb_neq. intros ->. discriminate H.
Qed.

(** a run of escapes in front of a text is transparent to [uri_text] *)
Lemma uri_text_escapes (os : list N) (t : jsstring) :
  Forall (fun o => o < 256) os ->
  uri_text (flat_map pct os ++ t) = uri_text t.
Proof.
  induction 1 as [| o os Ho _ IH]; [reflexivity |].
  simpl. rewrite IH.
  destruct (hex_digit_hex (o / 16)) as [-> _].
  { pose proof (N.Div0.div_lt_upper_bound o 16 16). lia. }
  destruct (hex_digit_hex (o mod 16)) as [-> _].
  { pose proof (N.mod_lt o 16). lia. }
  reflexivity.
Qed.

Lemma data_unit_hex (d : N) : d < 16 -> data_unit (hex_digit d) = true.
Proof.
  intro H. unfold data_unit, unescaped.
  destruct (hex_digit_hex d H) as [_ ->]. reflexivity.
Qed.

Lemma data_units_escapes (os : list N) :
  Forall (fun o => o < 256) os ->
  forallb data_unit (flat_map pct os) = true.
Proof.
  induction 1 as [| o os Ho _ IH]; [reflexivity |].
  change (flat_map pct (o :: os)) with (pct o ++ flat_map pct os).
  rewrite forallb_app, IH. unfold pct. cbn [forallb].
  rewrite !data_unit_hex; [reflexivity | |].
  - pose proof (N.mod_lt o 16). lia.
  - pose proof (N.Div0.div_lt_upper_bound o 16 16). lia.
Qed.

(** the escaped text, by induction along the steps of the function *)
Lemma encode_text_upto (n : nat) (s enc : jsstring) :
  (List.length s <= n)%nat ->
  js_string s = true ->
  encodeURIComponent s = Return enc ->
  uri_text enc = true /\ forallb data_unit enc = true.
Proof.
  revert s enc. induction n as [| n IH]; intros s enc Hlen Hjs.
  - destruct s; [| simpl in Hlen; lia]. simpl. now intros [= <-].
  - destruct s as [| c rest]; [simpl; now intros [= <-] |].
    simpl in Hlen. simpl in Hjs. apply andb_true_iff in Hjs.
    destruct Hjs as [Hc Hrest]. apply N.ltb_lt in Hc.
    simpl encodeURIComponent.
    destruct (unescaped c) eqn:Hu.
    + destruct (encodeURIComponent rest) as [t |] eqn:E; [| discriminate].
      simpl. intros [= <-].
      destruct (IH rest t ltac:(lia) Hrest E) as [H1 H2].
      destruct (unescaped_uri_char c Hu) as [U1 U2].
      simpl. rewrite U2, U1, H1, H2. unfold data_unit. now rewrite Hu.
    + destruct (is_trail c); [discriminate |].
      destruct (is_lead c) eqn:Hl.
      * destruct rest as [| d rest']; [discriminate |].
        destruct (is_trail d) eqn:Ht; [| discriminate].
        simpl in Hrest. apply andb_true_iff in Hrest.
        destruct Hrest as [_ Hrest'].
        destruct (encodeURIComponent rest') as [t |] eqn:E; [| discriminate].
        simpl. intros [= <-]. simpl in Hlen.
        destruct (IH rest' t ltac:(lia) Hrest' E) as [H1 H2].
        pose proof (utf8_octets _ (pair_code_point_bound c d Hl Ht)) as Ho.
        unfold escape. rewrite uri_text_escapes, forallb_app by exact Ho.
        now rewrite data_units_escapes, H1, H2.
      * destruct (encodeURIComponent rest) as [t |] eqn:E; [| discriminate].
        simpl. intros [= <-].
        destruct (IH rest t ltac:(lia) Hrest E) as [H1 H2].
        pose proof (utf8_octets c ltac:(lia)) as Ho.
        unfold escape. rewrite uri_text_escapes, forallb_app by exact Ho.
        now rewrite data_units_escapes, H1, H2.
Qed.

Lemma uri_text_plain (a t : jsstring) :
  forallb (fun c => uri_char c && negb (c =? 37)) a = true ->
  uri_text (a ++ t) = uri_text t.
Proof.
  induction a as [| c a IH]; [reflexivity |].
  simpl. rewrite !andb_true_iff, negb_true_iff.
  intros [[H1 H2] H3]. now rewrite H2, H1, IH.
Qed.

Lemma starts_with_app (a t : jsstring) : starts_with a (a ++ t) = true.
Proof.
  induction a as [| x a IH]; [reflexivity |].
  simpl. now rewrite N.eqb_refl, IH.
Qed.

End UriText.

(** X4: the escaped address of a JavaScript string is made only of
    letters, digits, [- _ . ! ~ * ' ( )] and the percent sign; it holds
    none of [& = ? # / :] and so adds no parameter to the request to
    the QR service. *)
Theorem escaped_address_is_inert (s enc : jsstring) :
  js_string s = true ->
  encodeURIComponent s = Return enc ->
  forallb data_unit enc = true
  /\ forall c, In c enc ->
       c <> 38%N /\ c <> 61%N /\ c <> 63%N /\ c <> 35%N /\ c <> 47%N
       /\ c <> 58%N /\ c <> 32%N.
Proof.
  intros Hjs He.
  destruct (encode_text_upto (List.length s) s enc (le_n _) Hjs He) as [_ H].
  split; [exact H |]. intros c Hc.
  rewrite forallb_forall in H. specialize (H c Hc).
  repeat split; intros ->; discriminate H.
Qed.

Lemma escaped_address_is_inert_witness :
  forallb data_unit (lit "a%26b%3Dc%3F%23") = true.
Proof.
  exact (proj1 (escaped_address_is_inert (lit "a&b=c?#")
                  (lit "a%26b%3Dc%3F%23") eq_refl eq_refl)).
Defined.

(** X5: whenever [handleSubmit] starts its timer for a JavaScript
    string, the image URL it will show is a well-formed [https] URL
    that starts with the endpoint of the QR service. *)
Theorem image_url_well_formed (d : Draw) (data : GenerateFormValues)
  (h h' : Hooks) (t : trace) (q : Pending) :
  js_string (url data) = true ->
  handleSubmit_start d data h = (h', t, Some q) ->
  well_formed_url (image_url (awaited_response q)) = true
  /\ starts_with qr_endpoint (image_url (awaited_response q)) = true.
Proof.
  intros Hjs Hs.
  destruct (start_cases d data h) as [(enc & E & S) | (e & _ & S)];
    rewrite S in Hs; [| discriminate].
  injection Hs as _ _ <-. cbn [awaited_response image_url mockResponse].
  destruct (encode_text_upto _ _ enc (le_n _) Hjs E) as [H _].
  split.
  - unfold well_formed_url. apply andb_true_iff. split; [reflexivity |].
    rewrite uri_text_plain; [exact H | reflexivity].
  - apply starts_with_app.
Qed.

Lemma image_url_well_formed_witness :
  well_formed_url
    (lit "https://api.qrserver.com/v1/create-qr-code/?size=300x300&data=a%20b")
  = true.
Proof.
  exact (proj1 (image_url_well_formed
                  {| random := S754_zero false; now := 0; suffix := [] |}
                  {| url := lit "a b"; prompt := lit "abc" |}
                  initial_hooks _ _ _ eq_refl eq_refl)).
Defined.

(** ** The button, the handler and what is shown *)

(** X6: a submit calls [handleSubmit] exactly when the url has at least
    one code unit and the prompt between 3 and 160, the bounds included;
    otherwise the number of calls stays as it was. *)
Theorem handler_called_iff_lengths (d : Draw) (c : Controller) :
  (calls (log (onSubmit d c)) = S (calls (log c)) <->
   (1 <= Js.length (url (values (form c)))
    /\ 3 <= Js.length (prompt (values (form c))) <= 160)%nat)
  /\ (calls (log (onSubmit d c)) = calls (log c)
      \/ calls (log (onSubmit d c)) = S (calls (log c))).
Proof.
  rewrite <- schema_valid_iff.
  destruct (isEmptyObject (generateFormSchema (values (form c)))) eqn:E.
  - rewrite (onSubmit_valid d c E).
    assert (H : forall h t q,
               handleSubmit_start d (values (form c)) (hooks c) = (h, t, q) ->
               calls (CallOnValid (values (form c)) :: t) = 1%nat).
    { intros h t q Hs.
      destruct (start_cases d (values (form c)) (hooks c))
        as [(enc & _ & S) | (e & _ & S)]; rewrite S in Hs;
        injection Hs as _ <- _; reflexivity. }
    destruct (handleSubmit_start d (values (form c)) (hooks c))
      as [[h t] q] eqn:Hs.
    specialize (H h t q eq_refl). cbn [log].
    rewrite calls_app, H.
    split; [split; [reflexivity | intros _; lia] | right; lia].
  - rewrite (onSubmit_invalid d c E). cbn [with_form log].
    split; [split; [lia | discriminate] | left; reflexivity].
Qed.

(** X7: in every state of the page, a click on the enabled submit
    button reaches [handleSubmit]: the values pass the schema, no field
    error is left, and the page is Loading or, for a url that cannot be
    escaped, Failed. *)
Theorem enabled_button_calls_handler (d : Draw) (c : Controller) :
  reachable c ->
  button_disabled (render c) = false ->
  is_random (random d) = true ->
  exists c',
    perform (ClickSubmit d) c = Some c'
    /\ calls (log c') = S (calls (log c))
    /\ errors (form c') = no_errors
    /\ (requestState (hooks c') = Loading
        \/ requestState (hooks c') = Failed failed_message).
Proof.
  intros Hr Hb Hd. apply reachable_coherent in Hr. destruct Hr as [_ Hv].
  cbn [perform]. rewrite Hb, Hd. cbn [negb orb].
  cbn [render button_disabled] in Hb. apply orb_false_iff in Hb.
  destruct Hb as [_ Hb]. apply negb_false_iff in Hb. specialize (Hv Hb).
  eexists. split; [reflexivity |].
  rewrite (onSubmit_valid d c Hv).
  destruct (start_cases d (values (form c)) (hooks c))
    as [(enc & _ & ->) | (e & _ & ->)]; cbn [log form errors hooks];
    (split; [count_calls | split; [reflexivity |]]); [left | right];
    reflexivity.
Qed.

Lemma enabled_button_calls_handler_witness :
  exists c',
    perform (ClickSubmit {| random := S754_zero false; now := 0;
                            suffix := [] |})
            (with_form (onChange Prompt (lit "abc")
                          (onChange Url (lit "a") useForm)) first_render)
    = Some c'
    /\ calls (log c') = 1%nat.
Proof.
  pose (c := with_form (onChange Prompt (lit "abc")
                          (onChange Url (lit "a") useForm)) first_render).
  assert (R : reachable c).
  { apply (run_reachable
             [ChangeField Url (lit "a"); ChangeField Prompt (lit "abc")]
             first_render c reach_first).
    reflexivity. }
  destruct (enabled_button_calls_handler
              {| random := S754_zero false; now := 0; suffix := [] |}
              c R eq_refl eq_refl) as (c' & H1 & H2 & _).
  exists c'. split; [exact H1 | exact H2].
Defined.



(** X9: a Loading state always ends: its timer can fire, and then the
    page shows the result with no timer left; no timer ever fires in a
    state that is not Loading. *)
Theorem loading_always_ends (c : Controller) :
  reachable c ->
  (requestState (hooks c) = Loading ->
   exists c' r,
     perform TimerFires c = Some c'
     /\ requestState (hooks c') = Success r
     /\ pending c' = []
     /\ button_label (render c') = Regenerate)
  /\ (requestState (hooks c) <> Loading -> perform TimerFires c = None).
Proof.
  intro Hr. apply reachable_coherent in Hr. destruct Hr as [Hc _].
  unfold requestState. destruct (isLoading (hooks c)) eqn:Hl.
  - destruct Hc as (_ & He & p & Hp). split; [intros _ | congruence].
    cbn [perform]. unfold onTimer. rewrite Hp. cbn.
    do 2 eexists. split; [reflexivity |]. cbn. rewrite He. auto.
  - destruct Hc as [Hp _]. split.
    + destruct (error (hooks c)); [discriminate |].
      destruct (response (hooks c)); discriminate.
    + intros _. cbn [perform]. unfold onTimer. now rewrite Hp.
Qed.

Lemma loading_always_ends_witness :
  exists c' r,
    perform TimerFires
      (onSubmit {| random := S754_zero false; now := 0; suffix := [] |}
         (with_form (onChange Prompt (lit "abc")
                       (onChange Url (lit "a") useForm)) first_render))
    = Some c'
    /\ requestState (hooks c') = Success r.
Proof.
  pose (d := {| random := S754_zero false; now := 0; suffix := [] |}).
  pose (c := onSubmit d (with_form (onChange Prompt (lit "abc")
                           (onChange Url (lit "a") useForm)) first_render)).
  assert (R : reachable c).
  { apply (run_reachable
             [ChangeField Url (lit "a"); ChangeField Prompt (lit "abc");
              ClickSubmit d] first_render c reach_first).
    reflexivity. }
  destruct (proj1 (loading_always_ends c R) eq_refl)
    as (c' & r & H1 & H2 & _).
  exists c', r. split; [exact H1 | exact H2].
Defined.

(** ** What the page keeps track of *)

Section Ledgers.

Ltac tally :=
  unfold settled, calls, toasts_success, toasts_error, timers;
  cbn [log pending emit with_form];
  rewrite ?filter_app, ?length_app; cbn; lia.

Lemma settled_step (a : action) (c c' : Controller) :
  settled c -> perform a c = Some c' -> settled c'.
Proof.
  intros Hs. destruct a as [name v | i | d | | throws | origin cb];
    cbn [perform].
  - intros [= <-]. exact Hs.
  - destruct (nth_error promptSuggestions i); [| discriminate].
    intros [= <-]. exact Hs.
  - destruct (button_disabled (render c) || negb (is_random (random d)));
      [discriminate |].
    intros [= <-].
    destruct (isEmptyObject (generateFormSchema (values (form c)))) eqn:E.
    + rewrite (onSubmit_valid d c E).
      destruct (start_cases d (values (form c)) (hooks c))
        as [(enc & _ & ->) | (e & _ & ->)]; revert Hs; tally.
    + rewrite (onSubmit_invalid d c E). exact Hs.
  - unfold onTimer. destruct (pending c) as [| p rest] eqn:Hp;
      [discriminate |].
    intros [= <-]. revert Hs. unfold settled. rewrite Hp. tally.
  - destruct (actions (render c)); [| discriminate].
    intros [= <-]. revert Hs. destruct throws; tally.
  - destruct (actions (render c)); [| discriminate].
    intros [= <-]. revert Hs. destruct cb; tally.
Qed.

Lemma settled_mount (p : Props) : settled (mount p).
Proof.
  unfold mount, useEffect.
  destruct (truthy_string (imageUrl p)), (truthy_string (prompt_prop p)),
    (truthy_string (redirectUrl p)), (truthy_number (modelLatency p)),
    (truthy_string (id_prop p)); split; reflexivity.
Qed.

Lemma truthy_string_some (o : option jsstring) (s : jsstring) :
  truthy_string o = Some s -> o = Some s /\ s <> [].
Proof.
  destruct o as [t |]; [| discriminate]. simpl.
  destruct t; [discriminate |]. intros [= <-]. split; [reflexivity | discriminate].
Qed.

Lemma traced_mount (p : Props) : traced p (mount p).
Proof.
  unfold mount, useEffect.
  destruct (truthy_string (imageUrl p)) as [iu |] eqn:E1;
    [| repeat split; cbn; try discriminate; intros q []].
  destruct (truthy_string (prompt_prop p));
    [| repeat split; cbn; try discriminate; intros q []].
  destruct (truthy_string (redirectUrl p)) as [ru |] eqn:E3;
    [| repeat split; cbn; try discriminate; intros q []].
  destruct (truthy_number (modelLatency p));
    [| repeat split; cbn; try discriminate; intros q []].
  destruct (truthy_string (id_prop p));
    [| repeat split; cbn; try discriminate; intros q []].
  apply truthy_string_some in E1, E3. destruct E1 as [E1 _], E3 as [E3 _].
  split; [| split]; cbn.
  - intros r [= <-]. exists ru. split; [reflexivity |]. right. cbn. auto.
  - intros q [].
  - discriminate.
Qed.

Lemma traced_step (p : Props) (a : action) (c c' : Controller) :
  traced p c -> perform a c = Some c' -> traced p c'.
Proof.
  intros Ht. destruct a as [name v | i | d | | throws | origin cb];
    cbn [perform].
  - intros [= <-]. exact Ht.
  - destruct (nth_error promptSuggestions i); [| discriminate].
    intros [= <-]. exact Ht.
  - destruct (button_disabled (render c) || negb (is_random (random d)));
      [discriminate |].
    intros [= <-]. destruct Ht as (H1 & H2 & H3).
    destruct (isEmptyObject (generateFormSchema (values (form c)))) eqn:E.
    + rewrite (onSubmit_valid d c E).
      destruct (start_cases d (values (form c)) (hooks c))
        as [(enc & He & ->) | (e & _ & ->)]; split; [| split | | split]; cbn.
      * discriminate.
      * intros q Hq. apply in_app_or in Hq. destruct Hq as [Hq | [<- | []]].
        -- now apply H2.
        -- exists enc. split; [exact He | reflexivity].
      * discriminate.
      * discriminate.
      * intros q Hq. rewrite app_nil_r in Hq. now apply H2.
      * now intros m [= <-].
    + rewrite (onSubmit_invalid d c E). split; [| split]; assumption.
  - unfold onTimer. destruct (pending c) as [| q rest] eqn:Hp;
      [discriminate |].
    intros [= <-]. destruct Ht as (H1 & H2 & H3). rewrite Hp in H2.
    split; [| split]; cbn.
    + intros r [= <-]. exists (awaited_url q). split; [reflexivity |].
      left. apply H2. now left.
    + intros q' Hq. apply H2. now right.
    + exact H3.
  - destruct (actions (render c)); [| discriminate].
    intros [= <-]. exact Ht.
  - destruct (actions (render c)); [| discriminate].
    intros [= <-]. exact Ht.
Qed.

End Ledgers.

(** X10: in every state of the page, every call of [handleSubmit] so
    far has shown its success toast or its failure toast exactly once,
    or still waits for its timer; and a timer was started for exactly
    the calls that did not fail. *)
Theorem every_call_is_answered (c : Controller) :
  reachable c -> settled c.
Proof.
  induction 1 as [| p | a c c' _ IH Hs].
  - split; reflexivity.
  - apply settled_mount.
  - exact (settled_step a c c' IH Hs).
Qed.

Lemma every_call_is_answered_witness :
  exists c,
    run [ChangeField Url [0xD800%N]; ChangeField Prompt (lit "abc");
         ClickSubmit {| random := S754_zero false; now := 0; suffix := [] |};
         ChangeField Url (lit "a");
         ClickSubmit {| random := S754_zero false; now := 1; suffix := [] |}]
        first_render = Some c
    /\ settled c /\ calls (log c) = 2%nat /\ List.length (pending c) = 1%nat.
Proof.
  pose (l := [ChangeField Url [0xD800%N]; ChangeField Prompt (lit "abc");
              ClickSubmit {| random := S754_zero false; now := 0;
                             suffix := [] |};
              ChangeField Url (lit "a");
              ClickSubmit {| random := S754_zero false; now := 1;
                             suffix := [] |}]).
  destruct (run l first_render) as [c |] eqn:E; [| discriminate E].
  exists c. split; [exact E |]. split.
  - apply every_call_is_answered.
    exact (run_reachable l first_render c reach_first E).
  - injection E as <-. split; reflexivity.
Defined.

(** X11: on a page mounted with props [p], after any events, the result
    on display is the QR code of the address stored in [submittedURL],
    unless it is still the result the props gave; the results that wait
    for their timer are the codes of the addresses submitted; and an
    error on display is always the one message of [handleSubmit]. *)
Theorem result_matches_submitted_url (p : Props) (l : list action)
  (c : Controller) :
  run l (mount p) = Some c -> traced p c.
Proof.
  assert (G : forall l c0, traced p c0 -> run l c0 = Some c -> traced p c).
  { clear l. intros l. induction l as [| a l IH]; intros c0 H0; simpl.
    - now intros [= <-].
    - destruct (perform a c0) as [c1 |] eqn:E; [| discriminate].
      apply IH. exact (traced_step p a c0 c1 H0 E). }
  apply G, traced_mount.
Qed.

Lemma result_matches_submitted_url_witness :
  exists c,
    run [ChangeField Url (lit "a b"); ChangeField Prompt (lit "abc");
         ClickSubmit {| random := S754_zero false; now := 0; suffix := [] |};
         TimerFires]
        (mount {| imageUrl := None; prompt_prop := None; redirectUrl := None;
                  modelLatency := None; id_prop := None |}) = Some c
    /\ submittedURL (hooks c) = Some (lit "a b")
    /\ option_map image_url (response (hooks c))
       = Some (qr_endpoint ++ lit "a%20b")
    /\ traced {| imageUrl := None; prompt_prop := None; redirectUrl := None;
                 modelLatency := None; id_prop := None |} c.
Proof.
  eexists. split; [reflexivity |].
  split; [reflexivity | split; [reflexivity |]].
  apply (result_matches_submitted_url _
           [ChangeField Url (lit "a b"); ChangeField Prompt (lit "abc");
            ClickSubmit {| random := S754_zero false; now := 0;
                           suffix := [] |};
            TimerFires]).
  reflexivity.
Defined.

(** ** The id of a response *)

Section Ids.

Lemma lit_inj (a b : string) : lit a = lit b -> a = b.
Proof.
  unfold lit. intro H.
  rewrite <- (string_of_list_ascii_of_string a),
          <- (string_of_list_ascii_of_string b).
  f_equal. revert H.
  generalize (list_ascii_of_string a) (list_ascii_of_string b).
  intros x. induction x as [| c x IH]; intros [| e y]; simpl;
    try discriminate; auto.
  intros [= H1 H2]. f_equal; [| now apply IH].
  rewrite <- (ascii_N_embedding c), <- (ascii_N_embedding e). now rewrite H1.
Qed.

Lemma decimal_inj (z z' : Z) : decimal z = decimal z' -> z = z'.
Proof.
  intro H. apply lit_inj in H.
  assert (N : forall z, NilZero.int_of_string
                          (NilZero.string_of_int (Z.to_int z))
                        = Some (Z.to_int z)).
  { intro x. apply NilZero.isi; destruct x as [| q | q]; simpl;
      try discriminate; intros [= E];
      now apply (Unsigned.to_uint_nonnil q). }
  apply DecimalZ.to_int_inj.
  pose proof (N z) as Hz. rewrite H, (N z') in Hz. congruence.
Qed.

(** two texts cut at their last hyphen *)
Lemma split_at_last_dash (a a' s s' : jsstring) :
  dash_free s = true -> dash_free s' = true ->
  a ++ 45%N :: s = a' ++ 45%N :: s' -> a = a' /\ s = s'.
Proof.
  intros Hs Hs'. revert a'.
  assert (D : forall x y : jsstring, dash_free (x ++ 45%N :: y) = false).
  { intros x y. unfold dash_free. rewrite forallb_app. simpl.
    now rewrite andb_false_r. }
  induction a as [| c a IH]; intros [| c' a']; simpl.
  - now intros [= ->].
  - intros [= <- ->]. now rewrite D in Hs.
  - intros [= -> <-]. now rewrite D in Hs'.
  - intros [= -> H]. destruct (IH a' H) as [-> ->]. auto.
Qed.

End Ids.

(** X12: two responses with the same id were generated at the same
    millisecond and with the same random text, when that text has no
    hyphen; so submits at different times never share an id. *)
Theorem id_determines_time (d d' : Draw) (enc enc' : jsstring) :
  dash_free (suffix d) = true ->
  dash_free (suffix d') = true ->
  id (mockResponse d enc) = id (mockResponse d' enc') ->
  now d = now d' /\ suffix d = suffix d'.
Proof.
  intros Hs Hs' H. cbn [id mockResponse] in H.
  apply app_inv_head in H.
  change (lit "-" ++ suffix d) with (45%N :: suffix d) in H.
  change (lit "-" ++ suffix d') with (45%N :: suffix d') in H.
  destruct (split_at_last_dash _ _ _ _ Hs Hs' H) as [Hd ->].
  split; [now apply decimal_inj | reflexivity].
Qed.

Lemma id_determines_time_witness :
  id (mockResponse {| random := S754_zero false; now := -5;
                      suffix := lit "k3x9" |} [])
  = lit "qr--5-k3x9"
  /\ (id (mockResponse {| random := S754_zero false; now := -5;
                          suffix := lit "k3x9" |} [])
      = id (mockResponse {| random := S754_zero false; now := -5;
                            suffix := lit "k3x9" |} (lit "x")) ->
      (-5 = -5)%Z /\ lit "k3x9" = lit "k3x9").
Proof.
  split; [reflexivity |].
  exact (id_determines_time
           {| random := S754_zero false; now := -5; suffix := lit "k3x9" |}
           {| random := S754_zero false; now := -5; suffix := lit "k3x9" |}
           [] (lit "x") eq_refl eq_refl).
Defined.

(** ** The props, the toasts and the size of the escaped address *)

Section Remaining.

Lemma escape_length (os : list N) :
  List.length (flat_map pct os) = (3 * List.length os)%nat.
Proof. induction os as [| o os IH]; simpl; [reflexivity | lia]. Qed.

Lemma utf8_length (cp : N) :
  (1 <= List.length (utf8 cp) <= 4)%nat
  /\ ((cp < 0x10000)%N -> (List.length (utf8 cp) <= 3)%nat).
Proof.
  unfold utf8.
  destruct (N.ltb_spec cp 0x80); [simpl; lia |].
  destruct (N.ltb_spec cp 0x800); [simpl; lia |].
  destruct (N.ltb_spec cp 0x10000); simpl; lia.
Qed.

Lemma encode_length_upto (n : nat) (s enc : jsstring) :
  (List.length s <= n)%nat ->
  js_string s = true ->
  encodeURIComponent s = Return enc ->
  (List.length s <= List.length enc <= 9 * List.length s)%nat.
Proof.
  revert s enc. induction n as [| n IH]; intros s enc Hlen Hjs.
  - destruct s; [| simpl in Hlen; lia]. simpl. intros [= <-]. simpl. lia.
  - destruct s as [| c rest]; [simpl; intros [= <-]; simpl; lia |].
    simpl in Hlen. simpl in Hjs. apply andb_true_iff in Hjs.
    destruct Hjs as [Hc Hrest]. apply N.ltb_lt in Hc.
    simpl encodeURIComponent.
    destruct (unescaped c).
    + destruct (encodeURIComponent rest) as [t |] eqn:E; [| discriminate].
      simpl. intros [= <-]. specialize (IH rest t ltac:(lia) Hrest E).
      simpl. lia.
    + destruct (is_trail c); [discriminate |].
      destruct (is_lead c).
      * destruct rest as [| e rest']; [discriminate |].
        destruct (is_trail e); [| discriminate].
        simpl in Hrest. apply andb_true_iff in Hrest.
        destruct Hrest as [_ Hrest'].
        destruct (encodeURIComponent rest') as [t |] eqn:E; [| discriminate].
        simpl. intros [= <-]. simpl in Hlen.
        specialize (IH rest' t ltac:(lia) Hrest' E).
        unfold escape. rewrite length_app, escape_length.
        destruct (utf8_length (pair_code_point c e)) as [U _].
        simpl List.length. lia.
      * destruct (encodeURIComponent rest) as [t |] eqn:E; [| discriminate].
        simpl. intros [= <-].
        specialize (IH rest t ltac:(lia) Hrest E).
        unfold escape. rewrite length_app, escape_length.
        destruct (utf8_length c) as [U1 U2]. specialize (U2 Hc).
        simpl List.length. lia.
Qed.

End Remaining.

(** X13: the effect on the props either leaves the first render as it
    is or puts the page in Success with exactly the result, address and
    prompt of the props; a latency prop that is [0] or [NaN], or an
    empty image URL, keeps the stored result off the page. *)
Theorem props_effect (p : Props) :
  (mount p = first_render
   \/ exists r,
        requestState (hooks (mount p)) = Success r
        /\ imageUrl p = Some (image_url r)
        /\ modelLatency p = Some (model_latency_ms r)
        /\ id_prop p = Some (id r)
        /\ redirectUrl p = Some (url (values (form (mount p))))
        /\ prompt_prop p = Some (prompt (values (form (mount p))))
        /\ submittedURL (hooks (mount p)) = redirectUrl p
        /\ pending (mount p) = [] /\ log (mount p) = [])
  /\ (props_given p = false <-> mount p = first_render)
  /\ (forall x, modelLatency p = Some x -> Num.truthy x = false ->
                mount p = first_render)
  /\ (imageUrl p = Some [] -> mount p = first_render).
Proof.
  unfold mount, useEffect, props_given.
  destruct (truthy_string (imageUrl p)) as [iu |] eqn:E1.
  2:{ split; [left; reflexivity |
       split; [split; reflexivity | split; intros; reflexivity]]. }
  destruct (truthy_string (prompt_prop p)) as [pr |] eqn:E2.
  2:{ split; [left; reflexivity |
       split; [split; reflexivity | split; intros; reflexivity]]. }
  destruct (truthy_string (redirectUrl p)) as [ru |] eqn:E3.
  2:{ split; [left; reflexivity |
       split; [split; reflexivity | split; intros; reflexivity]]. }
  destruct (truthy_number (modelLatency p)) as [ml |] eqn:E4.
  2:{ split; [left; reflexivity |
       split; [split; reflexivity | split; intros; reflexivity]]. }
  destruct (truthy_string (id_prop p)) as [i |] eqn:E5.
  2:{ split; [left; reflexivity |
       split; [split; reflexivity | split; intros; reflexivity]]. }
  apply truthy_string_some in E1, E2, E3, E5.
  destruct E1 as [E1 N1], E2 as [E2 _], E3 as [E3 _], E5 as [E5 _].
  assert (E4' : modelLatency p = Some ml /\ Num.truthy ml = true).
  { unfold truthy_number in E4. destruct (modelLatency p) as [x |];
      [| discriminate].
    destruct (Num.truthy x) eqn:T; [| discriminate].
    injection E4 as <-. auto. }
  destruct E4' as [E4' T4].
  split; [| split; [| split]].
  - right. eexists. cbn. repeat split; eauto.
  - split; [discriminate |]. intro H.
    apply (f_equal (fun c => response (hooks c))) in H. discriminate H.
  - intros x Hx Tx. rewrite E4' in Hx. injection Hx as <-. congruence.
  - intro H. rewrite E1 in H. injection H as ->. now destruct N1.
Qed.

(** X14: a click on Download or on Share shows exactly one toast; the
    failure toast of Download is shown exactly when [downloadQrCode]
    throws, the failure toast of Share exactly when the page has no
    clipboard, and Share asks for a write in every other case. *)
Theorem one_toast_per_click (throws : bool) (cb : clipboard)
  (imageUrl filename origin qrId : jsstring) :
  (List.length (success_toasts (handleDownload throws imageUrl filename))
   + List.length (error_toasts (handleDownload throws imageUrl filename))
   = 1)%nat
  /\ (error_toasts (handleDownload throws imageUrl filename) <> []
      <-> throws = true)
  /\ (List.length (success_toasts (handleShare origin cb qrId))
      + List.length (error_toasts (handleShare origin cb qrId)) = 1)%nat
  /\ (error_toasts (handleShare origin cb qrId) <> [] <-> cb = Missing)
  /\ (clipboard_writes (handleShare origin cb qrId) = [] <-> cb = Missing).
Proof.
  destruct throws, cb; cbn;
    repeat split; try reflexivity; try discriminate; congruence.
Qed.

(** X15: an address made only of letters, digits and
    [- _ . ! ~ * ' ( )] is escaped to itself. *)
Theorem plain_address_unchanged (s : jsstring) :
  forallb unescaped s = true -> encodeURIComponent s = Return s.
Proof.
  induction s as [| c s IH]; [reflexivity |].
  simpl. rewrite andb_true_iff. intros [-> H]. now rewrite (IH H).
Qed.

Lemma plain_address_unchanged_witness :
  encodeURIComponent (lit "example.com") = Return (lit "example.com").
Proof. exact (plain_address_unchanged (lit "example.com") eq_refl). Defined.

(** X16: the escaped address of a JavaScript string is at least as long
    as the address and at most nine times as long. *)
Theorem escaped_address_length (s enc : jsstring) :
  js_string s = true ->
  encodeURIComponent s = Return enc ->
  (Js.length s <= Js.length enc <= 9 * Js.length s)%nat.
Proof. intros Hjs He. exact (encode_length_upto _ s enc (le_n _) Hjs He). Qed.

Lemma escaped_address_length_witness :
  (Js.length [0x20AC%N] <= Js.length (lit "%E2%82%AC")
   <= 9 * Js.length [0x20AC%N])%nat.
Proof.
  exact (escaped_address_length [0x20AC%N] (lit "%E2%82%AC") eq_refl eq_refl).
Defined.

(** X17: every suggestion the page offers passes the schema of the
    prompt: a click on it leaves no prompt error and, on a page that has
    a url and is not loading, enables the submit button. *)
Theorem suggestions_are_valid_prompts (i : nat) (s : jsstring)
  (c : Controller) :
  nth_error promptSuggestions i = Some s ->
  prompt_error (errors (form (selectSuggestion s c))) = None
  /\ (url (values (form c)) <> [] ->
      isLoading (hooks c) = false ->
      button_disabled (render (selectSuggestion s c)) = false).
Proof.
  intro Hn.
  assert (Hs : (3 <= Js.length s <= 160)%nat).
  { destruct i as [| [| [| [| i]]]]; simpl in Hn;
      try (injection Hn as <-; vm_compute; lia).
    destruct i; discriminate Hn. }
  assert (Hp : first_issue
                 (min 3 (lit "Prompt must be at least 3 characters") s)
                 (max 160 s) = None).
  { unfold first_issue, min, max.
    replace (Nat.ltb (Js.length s) 3) with false
      by (symmetry; apply Nat.ltb_ge; lia).
    replace (Nat.ltb 160 (Js.length s)) with false
      by (symmetry; apply Nat.ltb_ge; lia).
    reflexivity. }
  split.
  - cbn. exact Hp.
  - intros Hu Hl.
    change (isLoading (hooks c)
            || negb (isEmptyObject
                       (generateFormSchema
                          {| url := url (values (form c)); prompt := s |}))
            = false).
    rewrite Hl. unfold isEmptyObject, generateFormSchema.
    cbn [url_error prompt_error url prompt]. rewrite Hp.
    unfold min. destruct (url (values (form c))); [congruence | reflexivity].
Qed.

Lemma suggestions_are_valid_prompts_witness :
  prompt_error
    (errors (form (selectSuggestion (lit "A saharan desert") first_render)))
  = None.
Proof.
  exact (proj1 (suggestions_are_valid_prompts 3 (lit "A saharan desert")
                  first_render eq_refl)).
Defined.
